(** * Task synchronizer: the [useTasks] hook

    A shallow embedding of the React hook [useTasks] (realtime version) and of
    the types of [lib/supabase.ts].  The hook is an asynchronous program over
    four state cells ([tasks], [loading], [error], [stats]) and one ref
    ([isMountedRef]); it is embedded as a small free monad of the operations
    it performs (state setters, reading the ref, reading the clock, awaiting
    a query of the remote store), with an executor that runs a program up to
    its next [await]. *)

From Stdlib Require Import List ZArith NArith Lia Bool String Ascii.
Import ListNotations.
Local Open Scope Z_scope.

(** ** JavaScript strings *)

(** A JavaScript string is a sequence of UTF-16 code units; [.length] counts
    them. *)
Definition JSString : Type := list N.

Definition lit (s : string) : JSString :=
  map N_of_ascii (list_ascii_of_string s).

Definition str_eqb (a b : JSString) : bool :=
  if list_eq_dec N.eq_dec a b then true else false.

Definition js_length (s : JSString) : Z := Z.of_nat (List.length s).

(** [WhiteSpace] and [LineTerminator] code units, the ones
    [String.prototype.trim] strips. *)
Definition is_white_space (c : N) : bool :=
  (((9 <=? c) && (c <=? 13)) || (c =? 32) || (c =? 160) || (c =? 5760)
   || ((8192 <=? c) && (c <=? 8202)) || (c =? 8232) || (c =? 8233)
   || (c =? 8239) || (c =? 8287) || (c =? 12288) || (c =? 65279))%N.

Fixpoint trimStart (s : JSString) : JSString :=
  match s with
  | c :: s' => if is_white_space c then trimStart s' else s
  | [] => []
  end.

Definition trimEnd (s : JSString) : JSString := rev (trimStart (rev s)).

Definition trim (s : JSString) : JSString := trimEnd (trimStart s).

(** A string is truthy when it is not empty. *)
Definition truthy (s : JSString) : bool :=
  match s with [] => false | _ => true end.

(** ** Database types ([lib/supabase.ts]) *)

Inductive Priority : Type := low | normal | high.

Record Task : Type := mkTask {
  id : JSString;
  user_id : JSString;
  title : JSString;
  description : option JSString;
  is_complete : bool;
  priority : Priority;
  due_date : option JSString;
  created_at : JSString;
  updated_at : JSString
}.

(** [CreateTaskInput]: the optional properties are [None] when the key is
    missing. *)
Record CreateTaskInput : Type := mkInput {
  in_title : JSString;
  in_description : option JSString;
  in_priority : option Priority;
  in_due_date : option JSString
}.

(** [Partial<CreateTaskInput>].  [None] is a missing key.  For
    [description] and [due_date] the key can also be present with the value
    [undefined], which is [Some None]: [TaskItem] sends such a description.
    For [title] and [priority] the callers give a value or leave the key
    out, and [Task] has no value for a title or priority that is
    [undefined]. *)
Record Updates : Type := mkUpdates {
  up_title : option JSString;
  up_description : option (option JSString);
  up_priority : option Priority;
  up_due_date : option (option JSString)
}.

(** The [stats] object of the hook. *)
Record Stats : Type := mkStats {
  total : Z;
  completed : Z;
  pending : Z;
  overdue : Z
}.

(** What a [throw] carries: a [TaskError] with its message and code, or any
    other value. *)
Inductive Thrown : Type :=
| TaskError (message : string) (code : option JSString)
| OtherError.

(** The error object of a store response. *)
Record PgError : Type := mkPgError { pg_code : JSString }.

(** ** Push events *)

(** The payload of a [postgres_changes] event: a union tagged by
    [eventType], the handler reads [payload.new] of an insert and of an
    update, and [payload.old.id] of a delete. *)
Inductive Payload : Type :=
| INSERT (new : Task)
| UPDATE (new : Task)
| DELETE (old : Task).

(** [prev.some(t => t.id === x)] *)
Definition has_id (x : JSString) (prev : list Task) : bool :=
  existsb (fun t => str_eqb (id t) x) prev.

(** The updater that the realtime handler passes to [setTasks]. *)
Definition mergeEvent (payload : Payload) (prev : list Task) : list Task :=
  match payload with
  | INSERT newTask =>
      if has_id (id newTask) prev then prev else newTask :: prev
  | UPDATE new =>
      map (fun task => if str_eqb (id task) (id new) then new else task) prev
  | DELETE old =>
      filter (fun task => negb (str_eqb (id task) (id old))) prev
  end.

(** ** The hook's state and the programs over it *)

(** The values that [new Date(...)] depends on: the parse of a date string
    (milliseconds since the epoch, [None] for an invalid date) and the
    current time, which is read once for the tasks of one fetch. *)
Record Clock : Type := mkClock {
  Date_parse : JSString -> option Z;
  Date_now : Z
}.

(** The cells created by [useState] and [useRef].  [channelRef] holds the
    user id and the timestamp the channel is named with. *)
Record Hook : Type := mkHook {
  tasks : list Task;
  loading : bool;
  error : option string;
  stats : Stats;
  isMountedRef : bool;
  channelRef : option (JSString * Z)
}.

(** The row that [createTask] inserts. *)
Record NewTask : Type := mkNewTask {
  nt_user_id : JSString;
  nt_title : JSString;
  nt_description : option JSString;
  nt_priority : Priority;
  nt_due_date : option JSString
}.

(** The queries the hook sends to [supabase.from('tasks')]. *)
Inductive Query : Type :=
| SelectTasks (uid : JSString)
| InsertTask (row : NewTask)
| UpdateFields (updates : Updates) (taskId : JSString) (uid : JSString)
| UpdateComplete (complete : bool) (taskId : JSString) (uid : option JSString)
| DeleteTask (taskId : JSString) (uid : JSString).

(** What an awaited query resolves to: [{ data, error }].  The client
    resolves with an [error] object on failure instead of rejecting. *)
Record Response : Type := mkResponse {
  res_data : option (list Task);
  res_error : option PgError
}.

(** Asynchronous code over the hook: the operations it performs, each with
    its continuation. *)
Inductive Prog (A : Type) : Type :=
| Return (a : A)
| Throw (e : Thrown)
| SetTasks (f : list Task -> list Task) (k : Prog A)
| SetLoading (b : bool) (k : Prog A)
| SetError (e : option string) (k : Prog A)
| SetStats (s : Stats) (k : Prog A)
| ReadMounted (k : bool -> Prog A)
| ReadClock (k : Clock -> Prog A)
| Await (q : Query) (k : Response -> Prog A).

Arguments Return {A} a.
Arguments Throw {A} e.
Arguments SetTasks {A} f k.
Arguments SetLoading {A} b k.
Arguments SetError {A} e k.
Arguments SetStats {A} s k.
Arguments ReadMounted {A} k.
Arguments ReadClock {A} k.
Arguments Await {A} q k.

Fixpoint bind {A B : Type} (p : Prog A) (g : A -> Prog B) : Prog B :=
  match p with
  | Return a => g a
  | Throw e => Throw e
  | SetTasks f k => SetTasks f (bind k g)
  | SetLoading b k => SetLoading b (bind k g)
  | SetError e k => SetError e (bind k g)
  | SetStats s k => SetStats s (bind k g)
  | ReadMounted k => ReadMounted (fun b => bind (k b) g)
  | ReadClock k => ReadClock (fun c => bind (k c) g)
  | Await q k => Await q (fun r => bind (k r) g)
  end.

(** [try { p } catch (err) { handler err }] *)
Fixpoint try_catch {A : Type} (p : Prog A) (handler : Thrown -> Prog A) : Prog A :=
  match p with
  | Return a => Return a
  | Throw e => handler e
  | SetTasks f k => SetTasks f (try_catch k handler)
  | SetLoading b k => SetLoading b (try_catch k handler)
  | SetError e k => SetError e (try_catch k handler)
  | SetStats s k => SetStats s (try_catch k handler)
  | ReadMounted k => ReadMounted (fun b => try_catch (k b) handler)
  | ReadClock k => ReadClock (fun c => try_catch (k c) handler)
  | Await q k => Await q (fun r => try_catch (k r) handler)
  end.

(** [try { p } finally { final }] *)
Fixpoint try_finally {A : Type} (p : Prog A) (final : Prog unit) : Prog A :=
  match p with
  | Return a => bind final (fun _ => Return a)
  | Throw e => bind final (fun _ => Throw e)
  | SetTasks f k => SetTasks f (try_finally k final)
  | SetLoading b k => SetLoading b (try_finally k final)
  | SetError e k => SetError e (try_finally k final)
  | SetStats s k => SetStats s (try_finally k final)
  | ReadMounted k => ReadMounted (fun b => try_finally (k b) final)
  | ReadClock k => ReadClock (fun c => try_finally (k c) final)
  | Await q k => Await q (fun r => try_finally (k r) final)
  end.

Declare Scope prog_scope.
Delimit Scope prog_scope with prog.
Notation "x <- p ;; k" := (bind p (fun x => k))
  (at level 61, p at next level, right associativity) : prog_scope.
Notation "p ;; k" := (bind p (fun _ => k))
  (at level 61, right associativity) : prog_scope.

Definition setTasks (f : list Task -> list Task) : Prog unit := SetTasks f (Return tt).
Definition setLoading (b : bool) : Prog unit := SetLoading b (Return tt).
Definition setError (e : option string) : Prog unit := SetError e (Return tt).
Definition setStats (s : Stats) : Prog unit := SetStats s (Return tt).
Definition readMounted : Prog bool := ReadMounted (fun b => Return b).
Definition readClock : Prog Clock := ReadClock (fun c => Return c).
Definition await (q : Query) : Prog Response := Await q (fun r => Return r).
Definition when (b : bool) (p : Prog unit) : Prog unit :=
  if b then p else Return tt.

(** How far a program gets before it has to wait. *)
Inductive Result (A : Type) : Type :=
| Resolved (a : A)
| Rejected (e : Thrown)
| Pending (q : Query) (k : Response -> Prog A).

Arguments Resolved {A} a.
Arguments Rejected {A} e.
Arguments Pending {A} q k.

Definition with_tasks (f : list Task -> list Task) (h : Hook) : Hook :=
  mkHook (f (tasks h)) (loading h) (error h) (stats h) (isMountedRef h) (channelRef h).
Definition with_loading (b : bool) (h : Hook) : Hook :=
  mkHook (tasks h) b (error h) (stats h) (isMountedRef h) (channelRef h).
Definition with_error (e : option string) (h : Hook) : Hook :=
  mkHook (tasks h) (loading h) e (stats h) (isMountedRef h) (channelRef h).
Definition with_stats (s : Stats) (h : Hook) : Hook :=
  mkHook (tasks h) (loading h) (error h) s (isMountedRef h) (channelRef h).
Definition with_mounted (b : bool) (h : Hook) : Hook :=
  mkHook (tasks h) (loading h) (error h) (stats h) b (channelRef h).
Definition with_channel (c : option (JSString * Z)) (h : Hook) : Hook :=
  mkHook (tasks h) (loading h) (error h) (stats h) (isMountedRef h) c.

(** Runs [p] on the cells [h] until it returns, throws or awaits. *)
Fixpoint run {A : Type} (clk : Clock) (p : Prog A) (h : Hook) : Hook * Result A :=
  match p with
  | Return a => (h, Resolved a)
  | Throw e => (h, Rejected e)
  | SetTasks f k => run clk k (with_tasks f h)
  | SetLoading b k => run clk k (with_loading b h)
  | SetError e k => run clk k (with_error e h)
  | SetStats s k => run clk k (with_stats s h)
  | ReadMounted k => run clk (k (isMountedRef h)) h
  | ReadClock k => run clk (k clk) h
  | Await q k => (h, Pending q k)
  end.

(** ** The hook [useTasks] *)

Local Open Scope prog_scope.

(** [err instanceof TaskError ? err.message : fallback] *)
Definition message_or (err : Thrown) (fallback : string) : string :=
  match err with
  | TaskError m _ => m
  | OtherError => fallback
  end.

(** [if (!userId) absent; else present userId]: [undefined] and the empty
    string are falsy. *)
Definition with_user {A : Type} (userId : option JSString) (absent : A)
    (present : JSString -> A) : A :=
  match userId with
  | Some uid => if truthy uid then present uid else absent
  | None => absent
  end.

(** [data || []] *)
Definition or_empty (data : option (list Task)) : list Task :=
  match data with Some d => d | None => [] end.

(** [data?.filter(f).length || 0] *)
Definition count (f : Task -> bool) (data : option (list Task)) : Z :=
  match data with
  | Some d => Z.of_nat (List.length (filter f d))
  | None => 0
  end.

(** [!t.is_complete && t.due_date && new Date(t.due_date) < new Date()];
    a comparison with an invalid date is false. *)
Definition is_overdue (clk : Clock) (t : Task) : bool :=
  negb (is_complete t) &&
  match due_date t with
  | Some d =>
      truthy d &&
      match Date_parse clk d with
      | Some ms => ms <? Date_now clk
      | None => false
      end
  | None => false
  end.

Definition fetchTasks (userId : option JSString) : Prog unit :=
  with_user userId
    (setLoading false)
    (fun uid =>
       try_finally
         (try_catch
            (setError None ;;
             r <- await (SelectTasks uid) ;;
             match res_error r with
             | Some e => Throw (TaskError "Failed to fetch tasks" (Some (pg_code e)))
             | None =>
                 mounted <- readMounted ;;
                 when mounted
                   (let data := res_data r in
                    setTasks (fun _ => or_empty data) ;;
                    clk <- readClock ;;
                    let total := count (fun _ => true) data in
                    let completed := count is_complete data in
                    let pending := total - completed in
                    let overdue := count (is_overdue clk) data in
                    setStats (mkStats total completed pending overdue))
             end)
            (fun err =>
               mounted <- readMounted ;;
               when mounted (setError (Some (message_or err "Failed to fetch tasks")))))
         (mounted <- readMounted ;;
          when mounted (setLoading false))).

(** The handler of the realtime channel. *)
Definition onPostgresChanges (payload : Payload) : Prog unit :=
  mounted <- readMounted ;;
  if negb mounted then Return tt
  else setTasks (mergeEvent payload).

(** [x?.trim() || null] and [x || null] *)
Definition trim_or_null (x : option JSString) : option JSString :=
  match x with
  | Some d => if truthy (trim d) then Some (trim d) else None
  | None => None
  end.

Definition or_null (x : option JSString) : option JSString :=
  match x with
  | Some d => if truthy d then Some d else None
  | None => None
  end.

Definition createTask (userId : option JSString) (input : CreateTaskInput) : Prog unit :=
  with_user userId
    (Throw (TaskError "User not authenticated" None))
    (fun uid =>
       let title := trim (in_title input) in
       if negb (truthy title) || (js_length title =? 0) then
         Throw (TaskError "Task title is required" None)
       else if js_length title >? 500 then
         Throw (TaskError "Task title must be 500 characters or less" None)
       else if match in_description input with
               | Some d => truthy d && (js_length d >? 2000)
               | None => false
               end then
         Throw (TaskError "Task description must be 2000 characters or less" None)
       else
         try_catch
           (setError None ;;
            let newTask :=
              mkNewTask uid title (trim_or_null (in_description input))
                (match in_priority input with Some p => p | None => normal end)
                (or_null (in_due_date input)) in
            r <- await (InsertTask newTask) ;;
            match res_error r with
            | Some e => Throw (TaskError "Failed to create task" (Some (pg_code e)))
            | None => fetchTasks userId
            end)
           (fun err =>
              setError (Some (message_or err "Failed to create task")) ;;
              Throw err)).

(** [{ ...task, ...updates }]: every key of [updates] overwrites the field
    of [task], also when its value is [undefined].  An [undefined]
    description or due date is held as [None], like [null]: every reader of
    these two fields tests them for truthiness only. *)
Definition spread (task : Task) (updates : Updates) : Task :=
  mkTask (id task) (user_id task)
    (match up_title updates with Some t => t | None => title task end)
    (match up_description updates with Some d => d | None => description task end)
    (is_complete task)
    (match up_priority updates with Some p => p | None => priority task end)
    (match up_due_date updates with Some d => d | None => due_date task end)
    (created_at task) (updated_at task).

Definition updateTask (userId : option JSString) (taskId : JSString)
    (updates : Updates) : Prog unit :=
  with_user userId
    (Throw (TaskError "User not authenticated" None))
    (fun uid =>
       let attempt :=
         try_catch
           (setError None ;;
            setTasks (map (fun task =>
                             if str_eqb (id task) taskId then spread task updates
                             else task)) ;;
            r <- await (UpdateFields updates taskId uid) ;;
            match res_error r with
            | Some e =>
                fetchTasks userId ;;
                Throw (TaskError "Failed to update task" (Some (pg_code e)))
            | None => Return tt
            end)
           (fun err =>
              setError (Some (message_or err "Failed to update task")) ;;
              Throw err) in
       match up_title updates with
       | Some t =>
           let title := trim t in
           if negb (truthy title) || (js_length title =? 0) then
             Throw (TaskError "Task title cannot be empty" None)
           else if js_length title >? 500 then
             Throw (TaskError "Task title must be 500 characters or less" None)
           else attempt
       | None => attempt
       end).

(** [{ ...task, is_complete: b }] *)
Definition set_complete (b : bool) (task : Task) : Task :=
  mkTask (id task) (user_id task) (title task) (description task) b
    (priority task) (due_date task) (created_at task) (updated_at task).

Definition toggleTask (userId : option JSString) (taskId : JSString)
    (currentStatus : bool) : Prog unit :=
  try_catch
    (setTasks (map (fun task =>
                      if str_eqb (id task) taskId
                      then set_complete (negb currentStatus) task
                      else task)) ;;
     r <- await (UpdateComplete (negb currentStatus) taskId userId) ;;
     match res_error r with
     | Some e =>
         setTasks (map (fun task =>
                          if str_eqb (id task) taskId
                          then set_complete currentStatus task
                          else task)) ;;
         Throw (TaskError "Failed to toggle task" (Some (pg_code e)))
     | None => Return tt
     end)
    (fun err => setError (Some (message_or err "Failed to toggle task"))).

(** [rendered] is the value of [tasks] in the render that created the
    callback. *)
Definition deleteTask (userId : option JSString) (rendered : list Task)
    (taskId : JSString) : Prog unit :=
  with_user userId
    (Throw (TaskError "User not authenticated" None))
    (fun uid =>
       let originalTasks := rendered in
       try_catch
         (setError None ;;
          setTasks (filter (fun task => negb (str_eqb (id task) taskId))) ;;
          r <- await (DeleteTask taskId uid) ;;
          match res_error r with
          | Some e =>
              setTasks (fun _ => originalTasks) ;;
              Throw (TaskError "Failed to delete task" (Some (pg_code e)))
          | None => Return tt
          end)
         (fun err =>
            setError (Some (message_or err "Failed to delete task")) ;;
            Throw err)).

(** The code that runs when the awaited query of [res] resolves to [r]. *)
Definition resume (res : Result unit) (r : Response) : Prog unit :=
  match res with
  | Pending _ k => k r
  | Resolved a => Return a
  | Rejected e => Throw e
  end.

(** ** The subscription effect *)

(** An awaited query with the code that runs when it resolves. *)
Definition Suspended : Type := (Query * (Response -> Prog unit))%type.

Definition suspended (res : Result unit) : list Suspended :=
  match res with
  | Pending q k => [(q, k)]
  | _ => []
  end.

(** The body of the [useEffect]: it calls [fetchTasks()] without awaiting
    it, so the fetch runs up to its query, and then subscribes. *)
Definition effect (clk : Clock) (userId : option JSString) (h : Hook)
    : Hook * list Suspended :=
  let h := with_mounted true h in
  with_user userId
    (with_loading false h, [])
    (fun uid =>
       let '(h1, res) := run clk (fetchTasks userId) h in
       (with_channel (Some (uid, Date_now clk)) h1, suspended res)).

(** The function the effect returns; it returns none when the user id is
    missing. *)
Definition cleanup (userId : option JSString) (h : Hook) : Hook :=
  with_user userId h
    (fun _ =>
       let h := with_mounted false h in
       match channelRef h with
       | Some _ => with_channel None h
       | None => h
       end).

(** ** The hook as a transition system *)

(** A mounted [useTasks(userId)]: the prop, the cells, the value of [tasks]
    seen by the callbacks of the last render, and the awaited queries. *)
Record Machine : Type := mkMachine {
  userId : option JSString;
  hook : Hook;
  rendered : list Task;
  inflight : list Suspended;
  alive : bool
}.

Inductive Action : Type :=
| Refresh
| Create (input : CreateTaskInput)
| Update (taskId : JSString) (updates : Updates)
| Toggle (taskId : JSString) (currentStatus : bool)
| Delete (taskId : JSString).

Inductive Event : Type :=
| Render
| SetUser (u : option JSString) (clk : Clock)
| Unmount
| Push (payload : Payload) (clk : Clock)
| Call (a : Action) (clk : Clock)
| Respond (i : nat) (r : Response) (clk : Clock).

Definition initial_hook : Hook :=
  mkHook [] true None (mkStats 0 0 0 0) true None.

(** The first render and its effect. *)
Definition mount (u : option JSString) (clk : Clock) : Machine :=
  let '(h, s) := effect clk u initial_hook in
  mkMachine u h [] s true.

Definition user_eqb (a b : option JSString) : bool :=
  match a, b with
  | Some x, Some y => str_eqb x y
  | None, None => true
  | _, _ => false
  end.

(** The callback that the last render handed out for [a]. *)
Definition callback (m : Machine) (a : Action) : Prog unit :=
  match a with
  | Refresh => fetchTasks (userId m)
  | Create input => createTask (userId m) input
  | Update taskId updates => updateTask (userId m) taskId updates
  | Toggle taskId currentStatus => toggleTask (userId m) taskId currentStatus
  | Delete taskId => deleteTask (userId m) (rendered m) taskId
  end.

Fixpoint remove_nth {A : Type} (i : nat) (l : list A) : list A :=
  match i, l with
  | _, [] => []
  | O, _ :: l' => l'
  | S i', x :: l' => x :: remove_nth i' l'
  end.

(** One event of the event loop; [None] when it cannot happen. *)
Definition step (e : Event) (m : Machine) : option Machine :=
  match e with
  | Respond i r clk =>
      match nth_error (inflight m) i with
      | Some (_, k) =>
          let '(h, res) := run clk (k r) (hook m) in
          Some (mkMachine (userId m) h (rendered m)
                  (remove_nth i (inflight m) ++ suspended res) (alive m))
      | None => None
      end
  | _ =>
      if negb (alive m) then None else
      match e with
      | Render =>
          Some (mkMachine (userId m) (hook m) (tasks (hook m)) (inflight m) true)
      | SetUser u clk =>
          if user_eqb u (userId m) then
            Some (mkMachine (userId m) (hook m) (tasks (hook m)) (inflight m) true)
          else
            let '(h, s) := effect clk u (cleanup (userId m) (hook m)) in
            Some (mkMachine u h (tasks (hook m)) (inflight m ++ s) true)
      | Unmount =>
          Some (mkMachine (userId m) (cleanup (userId m) (hook m)) (rendered m)
                  (inflight m) false)
      | Push payload clk =>
          match channelRef (hook m) with
          | Some _ =>
              let '(h, res) := run clk (onPostgresChanges payload) (hook m) in
              Some (mkMachine (userId m) h (rendered m)
                      (inflight m ++ suspended res) true)
          | None => None
          end
      | Call a clk =>
          let '(h, res) := run clk (callback m a) (hook m) in
          Some (mkMachine (userId m) h (rendered m)
                  (inflight m ++ suspended res) true)
      | Respond _ _ _ => None
      end
  end.

(** What the remote store guarantees of a response: the rows of a select
    are keyed by [id] and are the ones of the user asked for. *)
Definition store_contract (q : Query) (r : Response) : Prop :=
  match q with
  | SelectTasks uid =>
      match res_data r with
      | Some d => NoDup (map id d) /\ Forall (fun t => user_id t = uid) d
      | None => True
      end
  | _ => True
  end.

(** The events the environment can produce in [m]: responses follow
    [store_contract], and a pushed row passes the channel's filter
    [user_id=eq.${userId}]. *)
Definition admissible (m : Machine) (e : Event) : Prop :=
  match e with
  | Respond i r _ =>
      match nth_error (inflight m) i with
      | Some (q, _) => store_contract q r
      | None => True
      end
  | Push (INSERT new) _ | Push (UPDATE new) _ =>
      match channelRef (hook m) with
      | Some (uid, _) => user_id new = uid
      | None => True
      end
  | _ => True
  end.

Inductive reachable : Machine -> Prop :=
| reach_mount u clk : reachable (mount u clk)
| reach_step m e m' :
    reachable m -> admissible m e -> step e m = Some m' -> reachable m'.

(** Runs a list of events from [m]. *)
Fixpoint steps (es : list Event) (m : Machine) : option Machine :=
  match es with
  | [] => Some m
  | e :: es' =>
      match step e m with
      | Some m' => steps es' m'
      | None => None
      end
  end.

(** ** Properties of programs kept by every setter call *)

Section Respects.

Variable PT : list Task -> Prop.
Variable PS : Stats -> Prop.

(** Every [setTasks] of the program keeps [PT], and every [setStats] sets
    a value in [PS], whatever the store answers within its contract. *)
Inductive respects {A : Type} : Prog A -> Prop :=
| respects_Return a : respects (Return a)
| respects_Throw e : respects (Throw e)
| respects_SetTasks f k :
    (forall l, PT l -> PT (f l)) -> respects k -> respects (SetTasks f k)
| respects_SetLoading b k : respects k -> respects (SetLoading b k)
| respects_SetError e k : respects k -> respects (SetError e k)
| respects_SetStats s k : PS s -> respects k -> respects (SetStats s k)
| respects_ReadMounted k :
    (forall b, respects (k b)) -> respects (ReadMounted k)
| respects_ReadClock k :
    (forall c, respects (k c)) -> respects (ReadClock k)
| respects_Await q k :
    (forall r, store_contract q r -> respects (k r)) -> respects (Await q k).

Definition respects_suspended (s : Suspended) : Prop :=
  forall r, store_contract (fst s) r -> respects (snd s r).

Definition respects_result (res : Result unit) : Prop :=
  Forall respects_suspended (suspended res).

End Respects.

(** ** The invariants of the specification *)

Definition unique_ids (l : list Task) : Prop := NoDup (map id l).

Definition stats_consistent (s : Stats) : Prop :=
  total s = completed s + pending s /\ overdue s <= pending s.

(** The stats derivation as the specification words it:
    [total = count(tasks)], [completed = count(tasks where complete = true)],
    [pending = total - completed], [overdue = count(tasks where complete =
    false and dueDate present and dueDate < now)]. *)
Definition spec_overdue (clk : Clock) (t : Task) : bool :=
  match is_complete t, due_date t with
  | false, Some d =>
      match Date_parse clk d with
      | Some ms => ms <? Date_now clk
      | None => false
      end
  | _, _ => false
  end.

Definition spec_stats (clk : Clock) (l : list Task) : Stats :=
  let total := Z.of_nat (List.length l) in
  let completed := Z.of_nat (List.length (filter (fun t => Bool.eqb (is_complete t) true) l)) in
  mkStats total completed (total - completed)
    (Z.of_nat (List.length (filter (spec_overdue clk) l))).

(** What every reachable state satisfies: unique ids in [tasks] and in the
    rendered value, consistent stats, and awaited code that keeps both. *)
Definition inv (m : Machine) : Prop :=
  unique_ids (tasks (hook m)) /\ unique_ids (rendered m)
  /\ stats_consistent (stats (hook m))
  /\ Forall (respects_suspended unique_ids stats_consistent) (inflight m).

(** ** Example data *)

Definition task_of (i u : string) (done : bool) : Task :=
  mkTask (lit i) (lit u) (lit "write report") None done normal None
    (lit "2024-06-01T10:00:00Z") (lit "2024-06-01T10:00:00Z").

Definition clock0 : Clock := mkClock (fun _ => None) 0.

Definition ok_response (d : list Task) : Response := mkResponse (Some d) None.

Definition failed_response : Response :=
  mkResponse None (Some (mkPgError (lit "23505"))).

(** The events of a trace are admissible where they occur. *)
Fixpoint admissible_steps (es : list Event) (m : Machine) : Prop :=
  match es with
  | [] => True
  | e :: es' =>
      admissible m e /\
      match step e m with
      | Some m' => admissible_steps es' m'
      | None => True
      end
  end.

(** The state a trace leads to, and the starting state when the trace
    cannot be run. *)
Definition after (es : list Event) (m : Machine) : Machine :=
  match steps es m with
  | Some m' => m'
  | None => m
  end.

(** User A signs in, the fetch returns two tasks, a third is pushed, and a
    toggle of the first fails at the store. *)
Definition trace_A : list Event :=
  [ Respond 0 (ok_response [task_of "t1" "A" false; task_of "t2" "A" true]) clock0;
    Render;
    Push (INSERT (task_of "t3" "A" false)) clock0;
    Call (Toggle (lit "t1") false) clock0;
    Respond 0 failed_response clock0 ].

Definition session_A : Machine := after trace_A (mount (Some (lit "A")) clock0).

(** User A signs in and the fetch returns two tasks. *)
Definition fetched_A : Machine :=
  after [Respond 0 (ok_response [task_of "t1" "A" false; task_of "t2" "A" true]) clock0]
    (mount (Some (lit "A")) clock0).

(** After the fetch a third task is pushed. *)
Definition pushed_A : Machine :=
  after [Push (INSERT (task_of "t3" "A" false)) clock0] fetched_A.

(** After the fetch the first task is toggled and the store accepts. *)
Definition toggled_A : Machine :=
  after [Call (Toggle (lit "t1") false) clock0;
         Respond 0 (mkResponse None None) clock0]
    fetched_A.

(** Then the session changes to user B. *)
Definition switched_to_B : Machine :=
  after [SetUser (Some (lit "B")) clock0] fetched_A.

(** A description of 2000 letters followed by a space: 2001 code units,
    2000 after trimming. *)
Definition padded_description : JSString := repeat 120%N 2000 ++ [32%N].

Definition padded_input : CreateTaskInput :=
  mkInput (lit "a") (Some padded_description) None None.

(** A title with a space on each side. *)
Definition spaced_title : Updates :=
  mkUpdates (Some (lit " a ")) None None None.

(** A hook that shows one open task of user A. *)
Definition one_task_hook : Hook :=
  mkHook [task_of "t1" "A" false] false None (mkStats 1 0 1 0) true None.

(** User A toggles a task, the component unmounts while the update is
    awaited, and the update fails. *)
Definition unmounted_A : Machine :=
  after [Call (Toggle (lit "t1") false) clock0; Unmount] fetched_A.

(** The same with the session ending instead of the component unmounting. *)
Definition signed_out_A : Machine :=
  after [Call (Toggle (lit "t1") false) clock0; SetUser None clock0] fetched_A.

(** ** The earlier hook, [hooks/useTask.ts]

    The hook that [App.tsx] imports.  It has the same four cells and no
    refs: [isMountedRef] and [channelRef] of [Hook] are neither read nor
    written by it.  Every mutation awaits the store and then fetches the
    whole collection again. *)

(** The stats that a fetch computes from [data]. *)
Definition fetched_stats (clk : Clock) (data : option (list Task)) : Stats :=
  let total := count (fun _ => true) data in
  let completed := count is_complete data in
  let pending := total - completed in
  let overdue := count (is_overdue clk) data in
  mkStats total completed pending overdue.

Module useTask.

Definition fetchTasks (userId : option JSString) : Prog unit :=
  with_user userId
    (setLoading false)
    (fun uid =>
       try_finally
         (try_catch
            (setError None ;;
             r <- await (SelectTasks uid) ;;
             match res_error r with
             | Some e => Throw (TaskError "Failed to fetch tasks" (Some (pg_code e)))
             | None =>
                 let data := res_data r in
                 setTasks (fun _ => or_empty data) ;;
                 clk <- readClock ;;
                 let total := count (fun _ => true) data in
                 let completed := count is_complete data in
                 let pending := total - completed in
                 let overdue := count (is_overdue clk) data in
                 setStats (mkStats total completed pending overdue)
             end)
            (fun err => setError (Some (message_or err "Failed to fetch tasks"))))
         (setLoading false)).

Definition createTask (userId : option JSString) (input : CreateTaskInput) : Prog unit :=
  with_user userId
    (Throw (TaskError "User not authenticated" None))
    (fun uid =>
       let title := trim (in_title input) in
       if negb (truthy title) then
         Throw (TaskError "Task title is required" None)
       else
         try_catch
           (setError None ;;
            let newTask :=
              mkNewTask uid title (trim_or_null (in_description input))
                (match in_priority input with Some p => p | None => normal end)
                (or_null (in_due_date input)) in
            r <- await (InsertTask newTask) ;;
            match res_error r with
            | Some e => Throw (TaskError "Failed to create task" (Some (pg_code e)))
            | None => fetchTasks userId
            end)
           (fun err =>
              setError (Some (message_or err "Failed to create task")) ;;
              Throw err)).

Definition updateTask (userId : option JSString) (taskId : JSString)
    (updates : Updates) : Prog unit :=
  with_user userId
    (Throw (TaskError "User not authenticated" None))
    (fun uid =>
       try_catch
         (setError None ;;
          r <- await (UpdateFields updates taskId uid) ;;
          match res_error r with
          | Some e => Throw (TaskError "Failed to update task" (Some (pg_code e)))
          | None => fetchTasks userId
          end)
         (fun err =>
            setError (Some (message_or err "Failed to update task")) ;;
            Throw err)).

Definition toggleTask (userId : option JSString) (taskId : JSString)
    (currentStatus : bool) : Prog unit :=
  with_user userId
    (Return tt)
    (fun uid =>
       try_catch
         (setError None ;;
          r <- await (UpdateComplete (negb currentStatus) taskId userId) ;;
          match res_error r with
          | Some e => Throw (TaskError "Failed to toggle task" (Some (pg_code e)))
          | None => fetchTasks userId
          end)
         (fun err => setError (Some (message_or err "Failed to toggle task")))).

Definition deleteTask (userId : option JSString) (taskId : JSString) : Prog unit :=
  with_user userId
    (Throw (TaskError "User not authenticated" None))
    (fun uid =>
       try_catch
         (setError None ;;
          r <- await (DeleteTask taskId uid) ;;
          match res_error r with
          | Some e => Throw (TaskError "Failed to delete task" (Some (pg_code e)))
          | None => fetchTasks userId
          end)
         (fun err =>
            setError (Some (message_or err "Failed to delete task")) ;;
            Throw err)).

(** The callback that the last render handed out for [a]. *)
Definition callback (m : Machine) (a : Action) : Prog unit :=
  match a with
  | Refresh => fetchTasks (userId m)
  | Create input => createTask (userId m) input
  | Update taskId updates => updateTask (userId m) taskId updates
  | Toggle taskId currentStatus => toggleTask (userId m) taskId currentStatus
  | Delete taskId => deleteTask (userId m) taskId
  end.

(** The first render and its effect [fetchTasks()]. *)
Definition mount (u : option JSString) (clk : Clock) : Machine :=
  let '(h, res) := run clk (fetchTasks u) initial_hook in
  mkMachine u h [] (suspended res) true.

(** One event of the event loop.  The hook subscribes to nothing, so no
    push event reaches it; its effect has no cleanup. *)
Definition step (e : Event) (m : Machine) : option Machine :=
  match e with
  | Respond i r clk =>
      match nth_error (inflight m) i with
      | Some (_, k) =>
          let '(h, res) := run clk (k r) (hook m) in
          Some (mkMachine (userId m) h (rendered m)
                  (remove_nth i (inflight m) ++ suspended res) (alive m))
      | None => None
      end
  | _ =>
      if negb (alive m) then None else
      match e with
      | Render =>
          Some (mkMachine (userId m) (hook m) (tasks (hook m)) (inflight m) true)
      | SetUser u clk =>
          if user_eqb u (userId m) then
            Some (mkMachine (userId m) (hook m) (tasks (hook m)) (inflight m) true)
          else
            let '(h, res) := run clk (fetchTasks u) (hook m) in
            Some (mkMachine u h (tasks (hook m)) (inflight m ++ suspended res) true)
      | Unmount =>
          Some (mkMachine (userId m) (hook m) (rendered m) (inflight m) false)
      | Push _ _ => None
      | Call a clk =>
          let '(h, res) := run clk (callback m a) (hook m) in
          Some (mkMachine (userId m) h (rendered m)
                  (inflight m ++ suspended res) true)
      | Respond _ _ _ => None
      end
  end.

Inductive reachable : Machine -> Prop :=
| reach_first_render u clk : reachable (mount u clk)
| reach_event m e m' :
    reachable m -> step e m = Some m' -> reachable m'.

(** Runs a list of events from [m]; the starting state when the list
    cannot be run. *)
Fixpoint steps (es : list Event) (m : Machine) : option Machine :=
  match es with
  | [] => Some m
  | e :: es' =>
      match step e m with
      | Some m' => steps es' m'
      | None => None
      end
  end.

Definition after (es : list Event) (m : Machine) : Machine :=
  match steps es m with
  | Some m' => m'
  | None => m
  end.

End useTask.

(** Every [setTasks] of the program is followed at once by the [setStats]
    of the same data. *)
Inductive synced {A : Type} : Prog A -> Prop :=
| synced_Return a : synced (Return a)
| synced_Throw e : synced (Throw e)
| synced_fetched data k :
    (forall clk, synced (k clk)) ->
    synced (SetTasks (fun _ => or_empty data)
              (ReadClock (fun clk => SetStats (fetched_stats clk data) (k clk))))
| synced_SetLoading b k : synced k -> synced (SetLoading b k)
| synced_SetError e k : synced k -> synced (SetError e k)
| synced_ReadMounted k : (forall b, synced (k b)) -> synced (ReadMounted k)
| synced_Await q k : (forall r, synced (k r)) -> synced (Await q k).

(** The time an event is handled at, for the events that run code of the
    hook. *)
Definition event_clock (e : Event) : option Clock :=
  match e with
  | SetUser _ clk | Push _ clk | Call _ clk | Respond _ _ clk => Some clk
  | Render | Unmount => None
  end.

(** [stats] is what a fetch at some time computes from [tasks]. *)
Definition stats_of_tasks (h : Hook) : Prop :=
  exists clk, stats h = fetched_stats clk (Some (tasks h)).

Definition synced_suspended (s : Suspended) : Prop :=
  forall r, synced (snd s r).

(** The query a program is waiting for, if any. *)
Definition awaited (res : Result unit) : option Query :=
  match res with
  | Pending q _ => Some q
  | _ => None
  end.

(** ** What a program may do to the cells *)

Section Setters.

Variable Q : Hook -> Hook -> Prop.

(** Every setter call of the program takes the cells from [h] to some
    [h'] with [Q h h']. *)
Inductive setters_within {A : Type} : Prog A -> Prop :=
| within_Return a : setters_within (Return a)
| within_Throw e : setters_within (Throw e)
| within_SetTasks f k :
    (forall h, Q h (with_tasks f h)) -> setters_within k ->
    setters_within (SetTasks f k)
| within_SetLoading b k :
    (forall h, Q h (with_loading b h)) -> setters_within k ->
    setters_within (SetLoading b k)
| within_SetError e k :
    (forall h, Q h (with_error e h)) -> setters_within k ->
    setters_within (SetError e k)
| within_SetStats s k :
    (forall h, Q h (with_stats s h)) -> setters_within k ->
    setters_within (SetStats s k)
| within_ReadMounted k :
    (forall b, setters_within (k b)) -> setters_within (ReadMounted k)
| within_ReadClock k :
    (forall c, setters_within (k c)) -> setters_within (ReadClock k)
| within_Await q k :
    (forall r, setters_within (k r)) -> setters_within (Await q k).

Definition within_suspended (s : Suspended) : Prop :=
  forall r, setters_within (snd s r).

End Setters.

(** [loading] does not go from [false] to [true]. *)
Definition loading_stays_off (h h' : Hook) : Prop :=
  loading h = false -> loading h' = false.

(** The subscription follows the session: while the component is alive
    the flag is set, a channel is open exactly when a user is present,
    and it filters on that user. *)
Definition lifecycle (m : Machine) : Prop :=
  (alive m = true -> isMountedRef (hook m) = true)
  /\ (forall uid t, channelRef (hook m) = Some (uid, t) ->
        alive m = true /\ userId m = Some uid /\ truthy uid = true)
  /\ (alive m = true -> forall uid, userId m = Some uid -> truthy uid = true ->
        exists t, channelRef (hook m) = Some (uid, t)).

(** ** [TaskItem] *)

(** The [useState] cells of a task item. *)
Record ItemState : Type := mkItemState {
  isEditing : bool;
  editTitle : JSString;
  editDescription : JSString
}.

(** The cells as the component creates them for [task]:
    [useState(task.title)] and [useState(task.description || '')]. *)
Definition item_state (task : Task) : ItemState :=
  mkItemState false (title task)
    (match description task with
     | Some d => if truthy d then d else []
     | None => []
     end).

(** What a handler of the item does to the outside. *)
Inductive ItemEffect : Type :=
| Alert (msg : string)
| OnUpdate (taskId : JSString) (updates : Updates)
| OnToggle (taskId : JSString) (isComplete : bool).

(** [handleSave].  The patch has the keys [title] and [description]; a blank
    description gives the value [undefined]. *)
Definition handleSave (task : Task) (st : ItemState) : ItemState * ItemEffect :=
  let trimmedTitle := trim (editTitle st) in
  if negb (truthy trimmedTitle) then
    (st, Alert "Title cannot be empty")
  else
    (mkItemState false (editTitle st) (editDescription st),
     OnUpdate (id task)
       (mkUpdates (Some trimmedTitle)
          (Some (trim_or_null (Some (editDescription st))))
          None None)).

(** The [onChange] of the checkbox: [onToggle(task.id, task.is_complete)]. *)
Definition checkbox_onChange (task : Task) : ItemEffect :=
  OnToggle (id task) (is_complete task).

(** ** [TaskForm] *)

(** The [useState] cells of the form that take part in a submission. *)
Record FormState : Type := mkFormState {
  form_title : JSString;
  form_description : JSString;
  form_priority : Priority;
  form_dueDate : JSString
}.

(** The keys of [newErrors]; [None] when the key is not set. *)
Record FormErrors : Type := mkFormErrors {
  title_error : option string;
  description_error : option string;
  dueDate_error : option string
}.

(** [validateForm]: the errors it sets.  [setHours0] is
    [today.setHours(0, 0, 0, 0)], the local midnight of a time. *)
Definition validateForm (clk : Clock) (setHours0 : Z -> Z) (f : FormState)
    : FormErrors :=
  let trimmedTitle := trim (form_title f) in
  mkFormErrors
    (if negb (truthy trimmedTitle) then Some "Task title is required"%string
     else if js_length trimmedTitle >? 500
          then Some "Title must be 500 characters or less"%string
          else None)
    (if js_length (form_description f) >? 2000
     then Some "Description must be 2000 characters or less"%string
     else None)
    (if truthy (form_dueDate f) then
       match Date_parse clk (form_dueDate f) with
       | Some selectedDate =>
           if selectedDate <? setHours0 (Date_now clk)
           then Some "Due date cannot be in the past"%string
           else None
       | None => None
       end
     else None).

(** [Object.keys(newErrors).length === 0] *)
Definition no_errors (e : FormErrors) : bool :=
  match title_error e, description_error e, dueDate_error e with
  | None, None, None => true
  | _, _, _ => false
  end.

(** The input that [handleSubmit] passes to [onSubmit]. *)
Definition submitted_input (f : FormState) : CreateTaskInput :=
  mkInput (trim (form_title f)) (trim_or_null (Some (form_description f)))
    (Some (form_priority f)) (or_null (Some (form_dueDate f))).

(** An input as typed: spaces around the title, a blank description, no
    priority and an empty due date. *)
Definition untidy_input : CreateTaskInput :=
  mkInput (lit "  buy milk ") (Some (lit "   ")) None (Some []).

(** A clock at which every date is in the past, a task that is due, and
    the earlier hook after a fetch at that clock has returned it. *)
Definition due_clock : Clock := mkClock (fun _ => Some 0) 1.

Definition late_task : Task :=
  mkTask (lit "t7") (lit "A") (lit "pay rent") (Some (lit "notes")) false high
    (Some (lit "2024-06-10")) (lit "2024-06-01T10:00:00Z") (lit "2024-06-01T10:00:00Z").

Definition earlier_late_A : Machine :=
  useTask.after [Respond 0 (ok_response [late_task]) due_clock]
    (useTask.mount (Some (lit "A")) clock0).

(** A hook that shows the task with its description, and the patch that
    [handleSave] sends when the description was blanked. *)
Definition noted_hook : Hook :=
  mkHook [late_task] false None (mkStats 1 0 1 1) true None.

Definition blanked_description_patch : Updates :=
  mkUpdates (Some (lit "pay rent")) (Some None) None None.

(** A patch of the priority alone, and a patch with a blank title. *)
Definition priority_patch : Updates := mkUpdates None None (Some high) None.

Definition blank_title_patch : Updates := mkUpdates (Some (lit "  ")) None None None.

(** User A deletes the first task; while the store is asked, a third
    task is pushed; then the store refuses the delete. *)
Definition delete_refused_A : Machine :=
  after [ Render;
          Call (Delete (lit "t1")) clock0;
          Push (INSERT (task_of "t3" "A" false)) clock0;
          Respond 0 failed_response clock0 ]
    fetched_A.

(** An item being edited with spaces around the new title, and a form
    filled in the same way. *)
Definition edited_item : ItemState :=
  mkItemState true (lit "  call Ann ") (lit " ").

Definition filled_form : FormState :=
  mkFormState (lit "  call Ann ") (lit " tomorrow ") high [].

(** The cells of the form: the fields, [submitting], and [errors] with
    its key [submit] apart from the keys that [validateForm] sets. *)
Record FormCells : Type := mkFormCells {
  fields : FormState;
  submitting : bool;
  errors : FormErrors;
  submit_error : option string
}.

Definition no_form_errors : FormErrors := mkFormErrors None None None.

(** The fields as [useState] creates them and as a successful submission
    resets them. *)
Definition empty_fields : FormState := mkFormState [] [] normal [].

(** [handleSubmit] up to [await onSubmit(...)]: the cells, and the input
    passed to [onSubmit] when the form is valid. *)
Definition handleSubmit_begin (clk : Clock) (setHours0 : Z -> Z) (c : FormCells)
    : FormCells * option CreateTaskInput :=
  let newErrors := validateForm clk setHours0 (fields c) in
  if negb (no_errors newErrors) then
    (mkFormCells (fields c) (submitting c) newErrors None, None)
  else
    (mkFormCells (fields c) true no_form_errors None,
     Some (submitted_input (fields c))).

(** [handleSubmit] after [onSubmit] has settled with [outcome]; while it
    is pending nothing happens.  A thrown [OtherError] stands for a value
    that is not an [Error]. *)
Definition handleSubmit_settle (outcome : Result unit) (c : FormCells) : FormCells :=
  match outcome with
  | Resolved _ => mkFormCells empty_fields false (errors c) (submit_error c)
  | Rejected e =>
      mkFormCells (fields c) false no_form_errors
        (Some (message_or e "Failed to create task"))
  | Pending _ _ => c
  end.

(** ** [App] *)

(** [s.startsWith(q)] and [s.includes(q)] on code units. *)
Fixpoint startsWith (s q : JSString) {struct q} : bool :=
  match q with
  | [] => true
  | c :: q' =>
      match s with
      | d :: s' => (c =? d)%N && startsWith s' q'
      | [] => false
      end
  end.

Fixpoint includes (s q : JSString) : bool :=
  startsWith s q ||
  match s with
  | [] => false
  | _ :: s' => includes s' q
  end.

(** [filteredAndSortedTasks] of [App]: the tasks it renders for the given
    search query.  [toLowerCase] is [String.prototype.toLowerCase]. *)
Definition filteredAndSortedTasks (toLowerCase : JSString -> JSString)
    (tasks : list Task) (searchQuery : JSString) : list Task :=
  let result := tasks in
  if truthy (trim searchQuery) then
    let q := toLowerCase searchQuery in
    filter (fun t =>
              includes (toLowerCase (title t)) q
              || match description t with
                 | Some d => includes (toLowerCase d) q
                 | None => false
                 end)
      result
  else result.

(** ** [useAuth] *)

(** A session; the application reads [session.user.id] from it. *)
Record Session : Type := mkSession { session_user_id : JSString }.

(** The [useState] cells of [useAuth]. *)
Record AuthCells : Type := mkAuthCells {
  session : option Session;
  auth_loading : bool;
  auth_error : option string;
  retryCount : Z
}.

(** One run of the effect: the cells, its local [mounted], and the delays
    of the timers it has set with [setTimeout]. *)
Record AuthInstance : Type := mkAuthInstance {
  cells : AuthCells;
  mounted : bool;
  timers : list Z
}.

Inductive AuthQuery : Type := GetSession | SignInAnonymously.

(** What [getSession] and [signInAnonymously] resolve to: the session of
    [data] and the message of [error]. *)
Record AuthResponse : Type := mkAuthResponse {
  auth_session : option Session;
  auth_failure : option string
}.

(** What [initAuth] throws: the error object of a response, which is an
    [Error] with a message, or any other value. *)
Inductive AuthThrown : Type :=
| AuthError (message : string)
| NotAnError.

(** The code of [useAuth]: setters, reading [mounted], awaiting a call of
    [supabase.auth], and setting the retry timer. *)
Inductive AuthProg : Type :=
| ADone
| AThrow (e : AuthThrown)
| ASetSession (s : option Session) (k : AuthProg)
| ASetLoading (b : bool) (k : AuthProg)
| ASetError (e : option string) (k : AuthProg)
| ASetRetryCount (f : Z -> Z) (k : AuthProg)
| AReadMounted (k : bool -> AuthProg)
| AAwait (q : AuthQuery) (k : AuthResponse -> AuthProg)
| ASetTimeout (delay : Z) (k : AuthProg).

Fixpoint auth_catch (p : AuthProg) (handler : AuthThrown -> AuthProg) : AuthProg :=
  match p with
  | ADone => ADone
  | AThrow e => handler e
  | ASetSession s k => ASetSession s (auth_catch k handler)
  | ASetLoading b k => ASetLoading b (auth_catch k handler)
  | ASetError e k => ASetError e (auth_catch k handler)
  | ASetRetryCount f k => ASetRetryCount f (auth_catch k handler)
  | AReadMounted k => AReadMounted (fun b => auth_catch (k b) handler)
  | AAwait q k => AAwait q (fun r => auth_catch (k r) handler)
  | ASetTimeout d k => ASetTimeout d (auth_catch k handler)
  end.

Inductive AuthResult : Type :=
| AuthResolved
| AuthRejected (e : AuthThrown)
| AuthPending (q : AuthQuery) (k : AuthResponse -> AuthProg).

Definition with_cells (f : AuthCells -> AuthCells) (i : AuthInstance) : AuthInstance :=
  mkAuthInstance (f (cells i)) (mounted i) (timers i).

Fixpoint auth_run (p : AuthProg) (i : AuthInstance) : AuthInstance * AuthResult :=
  match p with
  | ADone => (i, AuthResolved)
  | AThrow e => (i, AuthRejected e)
  | ASetSession s k =>
      auth_run k (with_cells (fun c => mkAuthCells s (auth_loading c) (auth_error c)
                                         (retryCount c)) i)
  | ASetLoading b k =>
      auth_run k (with_cells (fun c => mkAuthCells (session c) b (auth_error c)
                                         (retryCount c)) i)
  | ASetError e k =>
      auth_run k (with_cells (fun c => mkAuthCells (session c) (auth_loading c) e
                                         (retryCount c)) i)
  | ASetRetryCount f k =>
      auth_run k (with_cells (fun c => mkAuthCells (session c) (auth_loading c)
                                         (auth_error c) (f (retryCount c))) i)
  | AReadMounted k => auth_run (k (mounted i)) i
  | AAwait q k => (i, AuthPending q k)
  | ASetTimeout d k =>
      auth_run k (mkAuthInstance (cells i) (mounted i) (timers i ++ [d]))
  end.

(** The code that runs when the awaited call of [res] resolves to [r]. *)
Definition auth_resume (res : AuthResult) (r : AuthResponse) : AuthProg :=
  match res with
  | AuthPending _ k => k r
  | AuthResolved => ADone
  | AuthRejected e => AThrow e
  end.

Definition auth_awaited (res : AuthResult) : option AuthQuery :=
  match res with
  | AuthPending q _ => Some q
  | _ => None
  end.

(** [initAuth] of an effect that was run with the given [retryCount].  The
    timer it sets runs [retry_timer]. *)
Definition initAuth (retryCount : Z) : AuthProg :=
  auth_catch
    (ASetError None
       (AAwait GetSession (fun r =>
          match auth_failure r with
          | Some m => AThrow (AuthError m)
          | None =>
              AReadMounted (fun mounted =>
                if negb mounted then ADone else
                match auth_session r with
                | Some s => ASetSession (Some s) (ASetLoading false ADone)
                | None =>
                    AAwait SignInAnonymously (fun r2 =>
                      match auth_failure r2 with
                      | Some m => AThrow (AuthError m)
                      | None =>
                          AReadMounted (fun mounted =>
                            if negb mounted then ADone else
                            ASetSession (auth_session r2)
                              (ASetRetryCount (fun _ => 0)
                                 (ASetLoading false ADone)))
                      end)
                end)
          end)))
    (fun err =>
       AReadMounted (fun mounted =>
         if negb mounted then ADone else
         ASetError (Some (match err with
                          | AuthError m => m
                          | NotAnError => "Failed to initialize authentication"%string
                          end))
           (ASetLoading false
              (if retryCount <? 3
               then ASetTimeout (2000 * (retryCount + 1)) ADone
               else ADone)))).

(** The callback of the retry timer. *)
Definition retry_timer (retryCount : Z) : AuthProg :=
  ASetRetryCount (fun prev => prev + 1) (ASetLoading true (initAuth retryCount)).

(** The callback given to [onAuthStateChange]. *)
Definition onAuthStateChange (s : option Session) : AuthProg :=
  AReadMounted (fun mounted =>
    if mounted then
      ASetSession s (match s with Some _ => ASetError None ADone | None => ADone end)
    else ADone).

(** [retry] *)
Definition retry : AuthProg :=
  ASetRetryCount (fun _ => 0) (ASetLoading true (ASetError None ADone)).

(** The cells as [useState] creates them, in a mounted effect. *)
Definition initial_auth : AuthInstance :=
  mkAuthInstance (mkAuthCells None true None 0) true [].

(** A session of user A, and an effect that has been cleaned up. *)
Definition session_of_A : Session := mkSession (lit "A").

Definition cleaned_up_auth : AuthInstance :=
  mkAuthInstance (mkAuthCells None true None 1) false [].

(** A hook that still shows the message of an earlier failure. *)
Definition stale_error_hook : Hook :=
  mkHook [task_of "t1" "A" false] false (Some "Failed to delete task"%string)
    (mkStats 1 0 1 0) true None.

(** With the earlier hook: user A signs in, the fetch returns two tasks,
    the first is toggled, the store accepts, and the fetch that follows
    returns the new rows. *)
Definition earlier_session_A : Machine :=
  useTask.after
    [ Respond 0 (ok_response [task_of "t1" "A" false; task_of "t2" "A" true]) clock0;
      Call (Toggle (lit "t1") false) clock0;
      Respond 0 (mkResponse None None) clock0;
      Respond 0 (ok_response [task_of "t1" "A" true; task_of "t2" "A" true]) clock0 ]
    (useTask.mount (Some (lit "A")) clock0).

(** * Theorems *)

(** ** Strings *)

Lemma str_eqb_eq a b : str_eqb a b = true <-> a = b.
Proof. unfold str_eqb. destruct (list_eq_dec N.eq_dec a b); split; congruence. Qed.

Lemma str_eqb_neq a b : str_eqb a b = false <-> a <> b.
Proof. unfold str_eqb. destruct (list_eq_dec N.eq_dec a b); split; congruence. Qed.

Lemma str_eqb_refl a : str_eqb a a = true.
Proof. now apply str_eqb_eq. Qed.

Lemma trimStart_length s : (List.length (trimStart s) <= List.length s)%nat.
Proof.
  induction s as [|c s IH]; simpl; [lia|].
  destruct (is_white_space c); simpl; lia.
Qed.

Lemma trim_length s : js_length (trim s) <= js_length s.
Proof.
  unfold js_length, trim, trimEnd.
  rewrite length_rev.
  pose proof (trimStart_length (rev (trimStart s))) as H1.
  rewrite length_rev in H1.
  pose proof (trimStart_length s). lia.
Qed.

Lemma truthy_length s : truthy s = true <-> 0 < js_length s.
Proof.
  unfold js_length. destruct s; simpl; split; intros; try lia; congruence.
Qed.

(** ** The push-event merge *)

Lemma has_id_In x l : has_id x l = true <-> In x (map id l).
Proof.
  unfold has_id. rewrite existsb_exists, in_map_iff.
  split; intros [t [H1 H2]]; exists t.
  - apply str_eqb_eq in H2. tauto.
  - split; [tauto|]. apply str_eqb_eq. tauto.
Qed.

Lemma has_id_not_In x l : has_id x l = false <-> ~ In x (map id l).
Proof.
  rewrite <- has_id_In. destruct (has_id x l); split; congruence.
Qed.

Lemma map_replace_absent (x : JSString) (g : Task -> Task) l :
  ~ In x (map id l) ->
  map (fun task => if str_eqb (id task) x then g task else task) l = l.
Proof.
  induction l as [|t l IH]; simpl; intros H; [reflexivity|].
  destruct (str_eqb (id t) x) eqn:E.
  - apply str_eqb_eq in E. tauto.
  - f_equal. apply IH. tauto.
Qed.

Lemma filter_absent (x : JSString) l :
  ~ In x (map id l) ->
  filter (fun task => negb (str_eqb (id task) x)) l = l.
Proof.
  induction l as [|t l IH]; simpl; intros H; [reflexivity|].
  destruct (str_eqb (id t) x) eqn:E; simpl.
  - apply str_eqb_eq in E. tauto.
  - f_equal. apply IH. tauto.
Qed.

Lemma filter_removes (x : JSString) l :
  ~ In x (map id (filter (fun task => negb (str_eqb (id task) x)) l)).
Proof.
  rewrite in_map_iff. intros [t [H1 H2]].
  apply filter_In in H2. destruct H2 as [_ H2].
  rewrite <- H1, str_eqb_refl in H2. discriminate.
Qed.

Lemma mergeEvent_twice payload prev :
  mergeEvent payload (mergeEvent payload prev) = mergeEvent payload prev.
Proof.
  destruct payload as [row|row|row]; simpl.
  - destruct (has_id (id row) prev) eqn:E; [now rewrite E|].
    simpl. now rewrite str_eqb_refl.
  - rewrite map_map. apply map_ext. intros t.
    destruct (str_eqb (id t) (id row)) eqn:E; [|now rewrite E].
    now rewrite str_eqb_refl.
  - apply filter_absent, filter_removes.
Qed.

Lemma run_onPostgresChanges clk payload h :
  run clk (onPostgresChanges payload) h
  = (if isMountedRef h then with_tasks (mergeEvent payload) h else h, Resolved tt).
Proof.
  unfold onPostgresChanges. simpl. now destruct (isMountedRef h).
Qed.

(** C1: delivering a push event twice gives the collection that delivering
    it once gives.  On a mounted hook the handler replaces the collection
    [prev] by [mergeEvent payload prev] and touches no other cell; with the
    flag cleared it does nothing.  In [mergeEvent payload prev] an insert
    whose id is already there changes nothing and otherwise puts the row in
    front; an update puts the pushed row at every position whose task has
    its id and changes nothing when there is none; a delete keeps exactly
    the tasks with another id and changes nothing when the id is absent. *)
Theorem merge_event_idempotent (payload : Payload) (prev : list Task) :
  mergeEvent payload (mergeEvent payload prev) = mergeEvent payload prev
  /\ (forall clk h,
        fst (run clk (onPostgresChanges payload)
               (fst (run clk (onPostgresChanges payload) h)))
        = fst (run clk (onPostgresChanges payload) h))
  /\ (forall clk h, isMountedRef h = true ->
        run clk (onPostgresChanges payload) h
        = (mkHook (mergeEvent payload (tasks h)) (loading h) (error h) (stats h)
             (isMountedRef h) (channelRef h),
           Resolved tt))
  /\ (forall clk h, isMountedRef h = false ->
        run clk (onPostgresChanges payload) h = (h, Resolved tt))
  /\ match payload with
     | INSERT row =>
         (In (id row) (map id prev) -> mergeEvent payload prev = prev)
         /\ (~ In (id row) (map id prev) -> mergeEvent payload prev = row :: prev)
     | UPDATE row =>
         (forall i t, nth_error prev i = Some t ->
            nth_error (mergeEvent payload prev) i
            = Some (if list_eq_dec N.eq_dec (id t) (id row) then row else t))
         /\ List.length (mergeEvent payload prev) = List.length prev
         /\ (~ In (id row) (map id prev) -> mergeEvent payload prev = prev)
     | DELETE row =>
         (forall t, In t (mergeEvent payload prev) <-> In t prev /\ id t <> id row)
         /\ (~ In (id row) (map id prev) -> mergeEvent payload prev = prev)
     end.
Proof.
  split; [apply mergeEvent_twice|]. split.
  { intros clk h. rewrite !run_onPostgresChanges.
    destruct (isMountedRef h) eqn:E; cbn [fst]; [|now rewrite E].
    unfold with_tasks. cbn [isMountedRef tasks loading error stats channelRef].
    now rewrite E, mergeEvent_twice. }
  split.
  { intros clk h Hm. pose proof (run_onPostgresChanges clk payload h) as H.
    rewrite Hm in H. exact H. }
  split.
  { intros clk h Hm. pose proof (run_onPostgresChanges clk payload h) as H.
    rewrite Hm in H. exact H. }
  destruct payload as [row|row|row]; simpl.
  - split.
    + intros H. apply has_id_In in H. now rewrite H.
    + intros H. apply has_id_not_In in H. now rewrite H.
  - split; [|split].
    + intros i t H. rewrite nth_error_map, H. simpl. f_equal.
      unfold str_eqb. now destruct (list_eq_dec N.eq_dec (id t) (id row)).
    + apply length_map.
    + apply map_replace_absent.
  - split.
    + intros t. rewrite filter_In, negb_true_iff, str_eqb_neq. tauto.
    + apply filter_absent.
Qed.

Lemma merge_event_idempotent_witness :
  In (id (task_of "t1" "A" false)) (map id [task_of "t1" "A" false])
  /\ mergeEvent (INSERT (task_of "t1" "A" false)) [task_of "t1" "A" false]
     = [task_of "t1" "A" false]
  /\ isMountedRef one_task_hook = true
  /\ tasks (fst (run clock0 (onPostgresChanges (INSERT (task_of "t3" "A" false)))
                   one_task_hook))
     = [task_of "t3" "A" false; task_of "t1" "A" false].
Proof.
  split; [simpl; auto|]. split; [|split; [reflexivity|]].
  - apply (proj1 (proj2 (proj2 (proj2 (proj2
             (merge_event_idempotent (INSERT (task_of "t1" "A" false))
                [task_of "t1" "A" false])))))).
    simpl; auto.
  - exact (f_equal (fun x => tasks (fst x))
             (proj1 (proj2 (proj2
                       (merge_event_idempotent (INSERT (task_of "t3" "A" false)) [])))
                clock0 one_task_hook eq_refl)).
Defined.

(** ** Programs that respect a property of the cells *)

Section RespectsFacts.

Variable PT : list Task -> Prop.
Variable PS : Stats -> Prop.

Lemma respects_bind {A B : Type} (p : Prog A) (g : A -> Prog B) :
  respects PT PS p -> (forall a, respects PT PS (g a)) ->
  respects PT PS (bind p g).
Proof.
  induction 1; intros Hg; simpl; try (constructor; now auto).
  apply Hg.
Qed.

Lemma respects_try_catch {A : Type} (p : Prog A) (handler : Thrown -> Prog A) :
  respects PT PS p -> (forall e, respects PT PS (handler e)) ->
  respects PT PS (try_catch p handler).
Proof.
  induction 1; intros Hh; simpl; try (constructor; now auto).
  apply Hh.
Qed.

Lemma respects_try_finally {A : Type} (p : Prog A) (final : Prog unit) :
  respects PT PS p -> respects PT PS final ->
  respects PT PS (try_finally p final).
Proof.
  induction 1; intros Hf; simpl; try (constructor; now auto).
  - apply respects_bind; [assumption | intros; constructor].
  - apply respects_bind; [assumption | intros; constructor].
Qed.

Lemma respects_when (b : bool) (p : Prog unit) :
  respects PT PS p -> respects PT PS (when b p).
Proof. destruct b; simpl; [tauto | constructor]. Qed.

(** Running a respectful program keeps the properties of the cells, and
    what it leaves suspended is respectful again. *)
Lemma run_respects clk (p : Prog unit) (h : Hook) :
  respects PT PS p -> PT (tasks h) -> PS (stats h) ->
  PT (tasks (fst (run clk p h))) /\ PS (stats (fst (run clk p h)))
  /\ respects_result PT PS (snd (run clk p h)).
Proof.
  intros Hp. revert h.
  induction Hp; intros h HT HS; simpl.
  - repeat split; [assumption | assumption | constructor].
  - repeat split; [assumption | assumption | constructor].
  - apply IHHp; simpl; auto.
  - apply IHHp; simpl; auto.
  - apply IHHp; simpl; auto.
  - apply IHHp; simpl; auto.
  - auto.
  - auto.
  - split; [assumption | split; [assumption|]].
    constructor; [exact H | constructor].
Qed.

End RespectsFacts.

(** ** The hook keeps ids unique and stats consistent *)

Lemma map_id_replace (P : Task -> bool) (g : Task -> Task) l :
  (forall t, id (g t) = id t) ->
  map id (map (fun task => if P task then g task else task) l) = map id l.
Proof.
  intros Hg. rewrite map_map. apply map_ext.
  intros t. destruct (P t); auto.
Qed.

Lemma unique_ids_filter (P : Task -> bool) l :
  unique_ids l -> unique_ids (filter P l).
Proof.
  unfold unique_ids. induction l as [|t l IH]; simpl; intros H; [constructor|].
  inversion H as [|x xs Hnot Hnd]; subst.
  destruct (P t); simpl; [|auto].
  constructor; [|auto].
  rewrite in_map_iff in *. intros [t' [E Hin]].
  apply Hnot. exists t'. apply filter_In in Hin. tauto.
Qed.

Lemma unique_ids_mergeEvent payload l :
  unique_ids l -> unique_ids (mergeEvent payload l).
Proof.
  unfold unique_ids. destruct payload as [row|row|row]; simpl; intros H.
  - destruct (has_id (id row) l) eqn:E; [assumption|].
    simpl. constructor; [now apply has_id_not_In | assumption].
  - rewrite map_map.
    replace (map _ l) with (map id l); [assumption|].
    apply map_ext. intros t.
    destruct (str_eqb (id t) (id row)) eqn:E; [|reflexivity].
    apply str_eqb_eq in E. congruence.
  - now apply unique_ids_filter.
Qed.

Lemma filter_disjoint_length (P Q : Task -> bool) l :
  (forall t, P t = true -> Q t = false) ->
  (List.length (filter P l) + List.length (filter Q l) <= List.length l)%nat.
Proof.
  intros H. induction l as [|t l IH]; simpl; [lia|].
  destruct (P t) eqn:EP; [rewrite (H t EP)|destruct (Q t)]; simpl; lia.
Qed.

Lemma count_true_length data :
  count (fun _ => true) data = Z.of_nat (List.length (or_empty data)).
Proof.
  destruct data as [d|]; simpl; [|reflexivity].
  f_equal. f_equal. induction d; simpl; congruence.
Qed.

Lemma fetched_stats_consistent clk (data : option (list Task)) :
  stats_consistent
    (mkStats (count (fun _ => true) data) (count is_complete data)
       (count (fun _ => true) data - count is_complete data)
       (count (is_overdue clk) data)).
Proof.
  unfold stats_consistent; simpl. split; [lia|].
  rewrite count_true_length.
  destruct data as [d|]; simpl; [|lia].
  pose proof (filter_disjoint_length (is_overdue clk) is_complete d) as H.
  assert (forall t, is_overdue clk t = true -> is_complete t = false) as Hd.
  { intros t. unfold is_overdue. destruct (is_complete t); simpl; congruence. }
  specialize (H Hd). lia.
Qed.

Ltac respects_step :=
  match goal with
  | |- forall _, _ => intro
  | |- respects _ _ _ => progress cbn [bind try_catch try_finally]
  | |- respects _ _ (bind _ _) => apply respects_bind
  | |- respects _ _ (try_catch _ _) => apply respects_try_catch
  | |- respects _ _ (try_finally _ _) => apply respects_try_finally
  | |- respects _ _ (when _ _) => apply respects_when
  | |- respects _ _ (if ?b then _ else _) => destruct b
  | |- respects _ _ (match ?x with _ => _ end) => destruct x eqn:?
  | |- respects _ _ _ => constructor
  end.

Ltac respects_auto :=
  unfold with_user, setTasks, setLoading, setError, setStats, readMounted,
    readClock, await;
  repeat respects_step.

Lemma fetchTasks_respects userId :
  respects unique_ids stats_consistent (fetchTasks userId).
Proof.
  unfold fetchTasks. respects_auto.
  - match goal with
    | H : store_contract _ ?r |- _ =>
        simpl in H; destruct (res_data r); simpl; [tauto | constructor]
    end.
  - apply fetched_stats_consistent.
Qed.

Lemma onPostgresChanges_respects payload :
  respects unique_ids stats_consistent (onPostgresChanges payload).
Proof.
  unfold onPostgresChanges. respects_auto.
  now apply unique_ids_mergeEvent.
Qed.

Lemma createTask_respects userId input :
  respects unique_ids stats_consistent (createTask userId input).
Proof.
  unfold createTask. respects_auto.
  apply fetchTasks_respects.
Qed.

Lemma updateTask_respects userId taskId updates :
  respects unique_ids stats_consistent (updateTask userId taskId updates).
Proof.
  unfold updateTask. respects_auto;
    try apply fetchTasks_respects;
    try (unfold unique_ids in *; rewrite map_id_replace; auto).
Qed.

Lemma toggleTask_respects userId taskId currentStatus :
  respects unique_ids stats_consistent (toggleTask userId taskId currentStatus).
Proof.
  unfold toggleTask. respects_auto;
    unfold unique_ids in *; rewrite map_id_replace; auto.
Qed.

Lemma deleteTask_respects userId original taskId :
  unique_ids original ->
  respects unique_ids stats_consistent (deleteTask userId original taskId).
Proof.
  intros Ho. unfold deleteTask. respects_auto;
    try (now apply unique_ids_filter); assumption.
Qed.

(** ** Reachable states *)

Lemma Forall_remove_nth {A : Type} (P : A -> Prop) i l :
  Forall P l -> Forall P (remove_nth i l).
Proof.
  intros H. revert i. induction H; intros [|i]; simpl; auto.
Qed.

Lemma cleanup_cells u h :
  tasks (cleanup u h) = tasks h /\ stats (cleanup u h) = stats h.
Proof.
  unfold cleanup, with_user. destruct u as [uid|]; [|auto].
  destruct (truthy uid); [|auto]. simpl.
  destruct (channelRef h); auto.
Qed.

Lemma effect_inv clk u h :
  unique_ids (tasks h) -> stats_consistent (stats h) ->
  unique_ids (tasks (fst (effect clk u h)))
  /\ stats_consistent (stats (fst (effect clk u h)))
  /\ Forall (respects_suspended unique_ids stats_consistent) (snd (effect clk u h)).
Proof.
  intros HT HS. unfold effect, with_user.
  destruct u as [uid|]; [destruct (truthy uid) eqn:E|];
    [| simpl; auto | simpl; auto].
  pose proof (run_respects unique_ids stats_consistent clk
                (fetchTasks (Some uid)) (with_mounted true h)
                (fetchTasks_respects (Some uid)) HT HS) as H.
  destruct (run clk (fetchTasks (Some uid)) (with_mounted true h)) as [h1 res].
  simpl in *. exact H.
Qed.

Lemma mount_inv u clk : inv (mount u clk).
Proof.
  unfold mount.
  pose proof (effect_inv clk u initial_hook) as H.
  destruct (effect clk u initial_hook) as [h s]. simpl in H.
  unfold inv; simpl.
  assert (unique_ids []) as Hnil by constructor.
  assert (stats_consistent (mkStats 0 0 0 0)) as Hz
    by (unfold stats_consistent; simpl; lia).
  specialize (H Hnil Hz). tauto.
Qed.

Lemma callback_respects m a :
  unique_ids (rendered m) ->
  respects unique_ids stats_consistent (callback m a).
Proof.
  intros Hr. destruct a; simpl.
  - apply fetchTasks_respects.
  - apply createTask_respects.
  - apply updateTask_respects.
  - apply toggleTask_respects.
  - now apply deleteTask_respects.
Qed.

Ltac inv_split :=
  unfold respects_result in *;
  split; [tauto | split; [tauto | split; [tauto | apply Forall_app; tauto]]].

Lemma step_inv e m m' :
  inv m -> admissible m e -> step e m = Some m' -> inv m'.
Proof.
  unfold inv. intros (HT & HR & HS & HF) Hadm Hstep.
  destruct e as [|u clk| |payload clk|a clk|i r clk]; unfold step in Hstep.
  - destruct (alive m); [|discriminate]. cbn [negb] in Hstep.
    injection Hstep as <-. simpl. tauto.
  - destruct (alive m); [|discriminate]. cbn [negb] in Hstep.
    destruct (user_eqb u (userId m)).
    + injection Hstep as <-. simpl. tauto.
    + destruct (cleanup_cells (userId m) (hook m)) as [E1 E2].
      pose proof (effect_inv clk u (cleanup (userId m) (hook m))) as H.
      rewrite E1, E2 in H. specialize (H HT HS).
      destruct (effect clk u (cleanup (userId m) (hook m))) as [h s].
      injection Hstep as <-. simpl in *.
      inv_split.
  - destruct (alive m); [|discriminate]. cbn [negb] in Hstep.
    injection Hstep as <-. simpl.
    destruct (cleanup_cells (userId m) (hook m)) as [E1 E2].
    rewrite E1, E2. tauto.
  - destruct (alive m); [|discriminate]. cbn [negb] in Hstep.
    destruct (channelRef (hook m)); [|discriminate].
    pose proof (run_respects unique_ids stats_consistent clk
                  (onPostgresChanges payload) (hook m)
                  (onPostgresChanges_respects payload) HT HS) as H.
    destruct (run clk (onPostgresChanges payload) (hook m)) as [h res].
    injection Hstep as <-. simpl in *.
    inv_split.
  - destruct (alive m); [|discriminate]. cbn [negb] in Hstep.
    pose proof (run_respects unique_ids stats_consistent clk
                  (callback m a) (hook m) (callback_respects m a HR) HT HS) as H.
    destruct (run clk (callback m a) (hook m)) as [h res].
    injection Hstep as <-. simpl in *.
    inv_split.
  - simpl in Hadm.
    destruct (nth_error (inflight m) i) as [[q k]|] eqn:E; [|discriminate].
    assert (respects unique_ids stats_consistent (k r)) as Hk.
    { rewrite Forall_forall in HF.
      apply (HF (q, k)); [eapply nth_error_In; eassumption | exact Hadm]. }
    pose proof (run_respects unique_ids stats_consistent clk (k r) (hook m)
                  Hk HT HS) as H.
    destruct (run clk (k r) (hook m)) as [h res].
    injection Hstep as <-. simpl in *.
    unfold respects_result in H.
    split; [tauto | split; [tauto | split; [tauto|]]].
    apply Forall_app. split; [now apply Forall_remove_nth | tauto].
Qed.

Lemma reachable_inv m : reachable m -> inv m.
Proof.
  induction 1 as [u clk | m e m' _ IH Hadm Hstep].
  - apply mount_inv.
  - eapply step_inv; eassumption.
Qed.

(** C2: in every reachable state of the synchronizer no task id occurs
    twice in the local collection. *)
Theorem reachable_unique_ids (m : Machine) :
  reachable m -> NoDup (map id (tasks (hook m))).
Proof.
  intros H. apply reachable_inv in H. apply H.
Qed.

(** C3: in every reachable state the exposed stats satisfy
    [total = completed + pending] and [overdue <= pending]. *)
Theorem reachable_stats_consistent (m : Machine) :
  reachable m ->
  total (stats (hook m)) = completed (stats (hook m)) + pending (stats (hook m))
  /\ overdue (stats (hook m)) <= pending (stats (hook m)).
Proof.
  intros H. apply reachable_inv in H. apply H.
Qed.

Lemma steps_reachable es m m' :
  reachable m -> admissible_steps es m -> steps es m = Some m' -> reachable m'.
Proof.
  revert m. induction es as [|e es IH]; simpl; intros m Hm Hadm Hs.
  - now injection Hs as <-.
  - destruct (step e m) as [m1|] eqn:E; [|discriminate].
    apply (IH m1); [|tauto|assumption].
    apply (reach_step m e m1); tauto.
Qed.

Ltac distinct_ids :=
  repeat constructor; simpl; intuition (try discriminate).

Lemma fetched_A_reachable : reachable fetched_A.
Proof.
  apply (steps_reachable
           [Respond 0 (ok_response [task_of "t1" "A" false; task_of "t2" "A" true]) clock0]
           (mount (Some (lit "A")) clock0)).
  - constructor.
  - simpl. repeat split; distinct_ids.
  - reflexivity.
Qed.

Lemma session_A_reachable : reachable session_A.
Proof.
  apply (steps_reachable trace_A (mount (Some (lit "A")) clock0)).
  - constructor.
  - simpl. repeat split; distinct_ids.
  - reflexivity.
Qed.

Lemma reachable_unique_ids_witness :
  reachable session_A /\ NoDup (map id (tasks (hook session_A))).
Proof.
  split; [exact session_A_reachable|].
  apply (reachable_unique_ids session_A). exact session_A_reachable.
Defined.

Lemma reachable_stats_consistent_witness :
  reachable session_A /\
  (total (stats (hook session_A))
   = completed (stats (hook session_A)) + pending (stats (hook session_A))
   /\ overdue (stats (hook session_A)) <= pending (stats (hook session_A))).
Proof.
  split; [exact session_A_reachable|].
  apply (reachable_stats_consistent session_A). exact session_A_reachable.
Defined.


(** ** Where stats are computed *)

Lemma is_overdue_spec clk t :
  Date_parse clk [] = None -> is_overdue clk t = spec_overdue clk t.
Proof.
  intros H. unfold is_overdue, spec_overdue.
  destruct (is_complete t); simpl; [reflexivity|].
  destruct (due_date t) as [[|c d]|]; simpl; [now rewrite H | reflexivity..].
Qed.

Lemma fetched_stats_spec clk (data : option (list Task)) :
  Date_parse clk [] = None ->
  mkStats (count (fun _ => true) data) (count is_complete data)
    (count (fun _ => true) data - count is_complete data)
    (count (is_overdue clk) data)
  = spec_stats clk (or_empty data).
Proof.
  intros H. unfold spec_stats. rewrite count_true_length.
  assert (count is_complete data
          = Z.of_nat (List.length
                        (filter (fun t => Bool.eqb (is_complete t) true) (or_empty data)))) as ->.
  { destruct data as [d|]; simpl; [|reflexivity].
    f_equal. f_equal. apply filter_ext. intros t. now destruct (is_complete t). }
  assert (count (is_overdue clk) data
          = Z.of_nat (List.length (filter (spec_overdue clk) (or_empty data)))) as ->.
  { destruct data as [d|]; simpl; [|reflexivity].
    f_equal. f_equal. apply filter_ext. intros t. now apply is_overdue_spec. }
  reflexivity.
Qed.

(** C4: the hook does not recompute the stats after a push-event merge or
    after the local effect of a mutation.  [setStats] is called by a fetch
    alone: a fetch that succeeds while the hook is mounted replaces the
    collection by the fetched rows and sets [stats] to the derivation
    formula of that collection, while the realtime handler, the optimistic
    step and both completions of [toggleTask] and of [deleteTask], and the
    optimistic step of [updateTask] leave [stats] as it was.  So in the
    state reached by a fetch of two tasks and the push of a third, the
    collection has three tasks and the stats count two; and in the state
    reached by the fetch and a toggle that the store accepts, both tasks
    are complete and the stats count one: in neither state are the stats
    the formula of the collection, at any time. *)
Theorem stats_recomputed_by_fetch_only :
  (forall clk payload h,
     stats (fst (run clk (onPostgresChanges payload) h)) = stats h)
  /\ (forall clk clk' userId taskId b h r h',
        stats (fst (run clk (toggleTask userId taskId b) h)) = stats h
        /\ stats (fst (run clk' (resume (snd (run clk (toggleTask userId taskId b) h)) r) h'))
           = stats h')
  /\ (forall clk clk' userId original taskId h r h',
        stats (fst (run clk (deleteTask userId original taskId) h)) = stats h
        /\ stats (fst (run clk' (resume (snd (run clk (deleteTask userId original taskId) h)) r) h'))
           = stats h')
  /\ (forall clk userId taskId updates h,
        stats (fst (run clk (updateTask userId taskId updates) h)) = stats h)
  /\ (forall clk clk' uid h r h',
        truthy uid = true -> res_error r = None -> isMountedRef h' = true ->
        Date_parse clk' [] = None ->
        let h2 := fst (run clk' (resume (snd (run clk (fetchTasks (Some uid)) h)) r) h') in
        tasks h2 = or_empty (res_data r) /\ stats h2 = spec_stats clk' (tasks h2))
  /\ (reachable pushed_A
      /\ List.length (tasks (hook pushed_A)) = 3%nat
      /\ stats (hook pushed_A) = mkStats 2 1 1 0
      /\ forall clk, stats (hook pushed_A) <> spec_stats clk (tasks (hook pushed_A)))
  /\ (reachable toggled_A
      /\ map is_complete (tasks (hook toggled_A)) = [true; true]
      /\ inflight toggled_A = []
      /\ stats (hook toggled_A) = mkStats 2 1 1 0
      /\ forall clk, stats (hook toggled_A) <> spec_stats clk (tasks (hook toggled_A))).
Proof.
  split; [|split; [|split; [|split; [|split; [|split]]]]].
  - intros clk payload h. unfold onPostgresChanges. simpl.
    now destruct (isMountedRef h).
  - intros clk clk' u taskId b h r h'. unfold toggleTask. simpl.
    split; [reflexivity|]. now destruct (res_error r).
  - intros clk clk' u original taskId h r h'. unfold deleteTask, with_user.
    destruct u as [uid|]; [destruct (truthy uid)|]; simpl;
      (split; [reflexivity|]); try reflexivity.
    now destruct (res_error r).
  - intros clk u taskId updates h. unfold updateTask, with_user.
    destruct u as [uid|]; [destruct (truthy uid)|]; simpl; try reflexivity.
    destruct (up_title updates) as [t|]; simpl; [|reflexivity].
    destruct (negb (truthy (trim t)) || (js_length (trim t) =? 0));
      [reflexivity|].
    now destruct (js_length (trim t) >? 500).
  - intros clk clk' uid h r h' Hu He Hm Hd. unfold fetchTasks, with_user.
    rewrite Hu. simpl. rewrite He. simpl. repeat (rewrite Hm; simpl).
    split; [reflexivity|]. now apply fetched_stats_spec.
  - split; [|split; [reflexivity|split; [reflexivity|]]].
    + apply (reach_step fetched_A (Push (INSERT (task_of "t3" "A" false)) clock0)).
      * exact fetched_A_reachable.
      * reflexivity.
      * reflexivity.
    + intros clk H. apply (f_equal total) in H. vm_compute in H. discriminate H.
  - split; [|split; [reflexivity|split; [reflexivity|split; [reflexivity|]]]].
    + apply (steps_reachable
               [Call (Toggle (lit "t1") false) clock0;
                Respond 0 (mkResponse None None) clock0] fetched_A).
      * exact fetched_A_reachable.
      * simpl. tauto.
      * reflexivity.
    + intros clk H. apply (f_equal completed) in H. vm_compute in H. discriminate H.
Qed.

Lemma stats_recomputed_by_fetch_only_witness :
  truthy (lit "A") = true
  /\ res_error (ok_response [task_of "t1" "A" false]) = None
  /\ isMountedRef initial_hook = true
  /\ Date_parse clock0 [] = None
  /\ (let h2 :=
        fst (run clock0
               (resume (snd (run clock0 (fetchTasks (Some (lit "A"))) initial_hook))
                  (ok_response [task_of "t1" "A" false]))
               initial_hook) in
      tasks h2 = or_empty (res_data (ok_response [task_of "t1" "A" false]))
      /\ stats h2 = spec_stats clock0 (tasks h2)).
Proof.
  repeat (split; [reflexivity|]).
  apply (proj1 (proj2 (proj2 (proj2 (proj2 stats_recomputed_by_fetch_only))))
           clock0 clock0 (lit "A") initial_hook
           (ok_response [task_of "t1" "A" false]) initial_hook);
    reflexivity.
Defined.

(** ** Session changes *)

Lemma switched_to_B_reachable : reachable switched_to_B.
Proof.
  apply (reach_step fetched_A (SetUser (Some (lit "B")) clock0)).
  - exact fetched_A_reachable.
  - exact I.
  - reflexivity.
Qed.

(** C5 (counterexample): after the session changed from A to B the
    collection still holds the tasks of A. *)
Lemma tasks_survive_session_change :
  ~ (forall m, reachable m ->
       forall t, In t (tasks (hook m)) -> userId m = Some (user_id t)).
Proof.
  intros H.
  specialize (H switched_to_B switched_to_B_reachable (task_of "t1" "A" false)).
  assert (In (task_of "t1" "A" false) (tasks (hook switched_to_B))) as Hin
    by (vm_compute; auto).
  specialize (H Hin). vm_compute in H. discriminate H.
Qed.

Lemma cleanup_tasks u h : tasks (cleanup u h) = tasks h.
Proof. apply cleanup_cells. Qed.

(** C5 (amended): a change of [userId] does not touch the collection, so
    the tasks of the previous user stay in it; the change starts a fetch
    for the new user, and when that fetch succeeds on the mounted hook the
    collection becomes the fetched rows, all of which belong to the new
    user. *)
Theorem session_change_keeps_tasks_until_fetch (m m' : Machine)
    (u : option JSString) (clk : Clock) :
  step (SetUser u clk) m = Some m' ->
  tasks (hook m') = tasks (hook m)
  /\ forall uid, u = Some uid -> truthy uid = true -> user_eqb u (userId m) = false ->
       userId m' = Some uid
       /\ exists k, inflight m' = inflight m ++ [(SelectTasks uid, k)]
          /\ forall r clk' h,
               store_contract (SelectTasks uid) r -> res_error r = None ->
               isMountedRef h = true ->
               tasks (fst (run clk' (k r) h)) = or_empty (res_data r)
               /\ Forall (fun t => user_id t = uid) (tasks (fst (run clk' (k r) h))).
Proof.
  unfold step. destruct (alive m); [|discriminate]. cbn [negb].
  destruct (user_eqb u (userId m)) eqn:E.
  - intros H. injection H as <-. simpl. split; [reflexivity|]. discriminate.
  - unfold effect, with_user.
    destruct u as [uid|]; [destruct (truthy uid) eqn:Eu|].
    + unfold fetchTasks, with_user. rewrite Eu. simpl.
      intros H. injection H as <-. simpl.
      split; [apply cleanup_tasks|].
      intros uid' Hu _ _. injection Hu as <-.
      split; [reflexivity|].
      eexists. split; [reflexivity|].
      intros r clk' h Hc He Hm. simpl. rewrite He. simpl.
      repeat (rewrite Hm; simpl).
      split; [reflexivity|].
      simpl in Hc. destruct (res_data r); simpl; [tauto|constructor].
    + simpl. intros H. injection H as <-. simpl.
      split; [apply cleanup_tasks|]. intros uid' Hu. injection Hu as <-. congruence.
    + simpl. intros H. injection H as <-. simpl.
      split; [apply cleanup_tasks|]. discriminate.
Qed.

Lemma session_change_keeps_tasks_until_fetch_witness :
  step (SetUser (Some (lit "B")) clock0) fetched_A = Some switched_to_B
  /\ tasks (hook switched_to_B) = tasks (hook fetched_A).
Proof.
  split; [reflexivity|].
  exact (proj1 (session_change_keeps_tasks_until_fetch fetched_A switched_to_B
                  (Some (lit "B")) clock0 eq_refl)).
Defined.

(** ** Toggle *)

Lemma set_complete_back (T : Task) :
  set_complete (is_complete T) (set_complete (negb (is_complete T)) T) = T.
Proof. now destruct T. Qed.

Lemma In_map_replace (x : JSString) (g : Task -> Task) (T : Task) l :
  In T l -> id T = x ->
  In (g T) (map (fun task => if str_eqb (id task) x then g task else task) l).
Proof.
  intros Hin Hid. apply in_map_iff. exists T.
  rewrite <- Hid, str_eqb_refl. tauto.
Qed.

Lemma map_replace_all (x : JSString) (g : Task -> Task) (P : Task -> Prop) l :
  (forall t, P (g t)) ->
  forall t, In t (map (fun task => if str_eqb (id task) x then g task else task) l) ->
            id t = x -> (forall u, id (g u) = id u) -> P t.
Proof.
  intros Hg t Hin Hid Hpres. apply in_map_iff in Hin.
  destruct Hin as [u [E Hu]].
  destruct (str_eqb (id u) x) eqn:Ex.
  - subst t. apply Hg.
  - subst t. apply str_eqb_neq in Ex. contradiction.
Qed.

(** C6: for a task [T] that is not complete, [toggleTask(T.id, false)]
    marks it complete at once and then awaits the update; when the update
    comes back with an error, [T] is back in the collection with
    [is_complete = false], the error cell holds a message, and the call
    resolves: whatever the store answers, it does not throw. *)
Theorem toggle_optimistic_rollback (userId : option JSString) (T : Task)
    (h : Hook) (clk clk' : Clock) (r : Response) (e : PgError) :
  In T (tasks h) -> is_complete T = false -> res_error r = Some e ->
  let h1 := fst (run clk (toggleTask userId (id T) false) h) in
  let res := snd (run clk (toggleTask userId (id T) false) h) in
  let h2 := fst (run clk' (resume res r) h1) in
  In (set_complete true T) (tasks h1)
  /\ (forall t, In t (tasks h1) -> id t = id T -> is_complete t = true)
  /\ (exists k, res = Pending (UpdateComplete true (id T) userId) k)
  /\ In T (tasks h2)
  /\ (forall t, In t (tasks h2) -> id t = id T -> is_complete t = false)
  /\ error h2 = Some "Failed to toggle task"%string
  /\ (forall r' h', snd (run clk' (resume res r') h') = Resolved tt).
Proof.
  intros Hin Hc He. unfold toggleTask. simpl.
  split; [|split; [|split; [|split; [|split; [|split]]]]].
  - now apply (In_map_replace (id T) (set_complete true)).
  - intros t Ht Hid.
    apply (map_replace_all (id T) (set_complete true)
             (fun t => is_complete t = true) (tasks h)); auto.
  - eexists. reflexivity.
  - rewrite He. simpl.
    pose proof (set_complete_back T) as Hb. rewrite Hc in Hb. simpl in Hb.
    rewrite <- Hb at 1.
    apply (In_map_replace (id T) (set_complete false)); [|reflexivity].
    now apply (In_map_replace (id T) (set_complete true)).
  - rewrite He. simpl. intros t Ht Hid.
    apply (map_replace_all (id T) (set_complete false)
             (fun t => is_complete t = false)
             (map (fun task => if str_eqb (id task) (id T)
                               then set_complete true task else task) (tasks h)));
      auto.
  - rewrite He. reflexivity.
  - intros r' h'. now destruct (res_error r').
Qed.

Lemma toggle_optimistic_rollback_witness :
  In (task_of "t1" "A" false) (tasks one_task_hook)
  /\ is_complete (task_of "t1" "A" false) = false
  /\ res_error failed_response = Some (mkPgError (lit "23505"))
  /\ error (fst (run clock0
                   (resume (snd (run clock0 (toggleTask (Some (lit "A")) (lit "t1") false)
                                   one_task_hook))
                      failed_response)
                   (fst (run clock0 (toggleTask (Some (lit "A")) (lit "t1") false)
                           one_task_hook))))
     = Some "Failed to toggle task"%string.
Proof.
  split; [simpl; auto|]. split; [reflexivity|]. split; [reflexivity|].
  apply (toggle_optimistic_rollback (Some (lit "A")) (task_of "t1" "A" false)
           one_task_hook clock0 clock0 failed_response (mkPgError (lit "23505")));
    [simpl; auto | reflexivity | reflexivity].
Defined.

(** ** Validation in [createTask] *)

(** C7 (counterexample): a description of 2001 code units whose trimmed
    length is 2000 passes the checks on trimmed lengths, and [createTask]
    rejects it. *)
Lemma padded_description_rejected :
  ~ (forall (uid : JSString) (input : CreateTaskInput) (h : Hook) (clk : Clock),
       truthy uid = true ->
       trim (in_title input) <> [] ->
       js_length (trim (in_title input)) <= 500 ->
       (forall d, in_description input = Some d -> js_length (trim d) <= 2000) ->
       forall e, snd (run clk (createTask (Some uid) input) h) <> Rejected e).
Proof.
  intros H.
  apply (H (lit "A") padded_input initial_hook clock0) with
    (e := TaskError "Task description must be 2000 characters or less" None).
  - reflexivity.
  - vm_compute. discriminate.
  - vm_compute. discriminate.
  - intros d Hd. injection Hd as <-. vm_compute. discriminate.
  - vm_compute. reflexivity.
Qed.

Lemma gtb_true a b : b < a -> (a >? b) = true.
Proof. intros H. rewrite Z.gtb_ltb. now apply Z.ltb_lt. Qed.

Lemma gtb_false a b : a <= b -> (a >? b) = false.
Proof. intros H. rewrite Z.gtb_ltb. now apply Z.ltb_ge. Qed.

Lemma title_required_test s :
  negb (truthy s) || (js_length s =? 0) = true <-> s = [].
Proof.
  destruct s as [|c s]; simpl; split; intros H;
    try reflexivity; discriminate.
Qed.

Lemma title_required_pass s :
  s <> [] -> negb (truthy s) || (js_length s =? 0) = false.
Proof.
  intros H. destruct (negb (truthy s) || (js_length s =? 0)) eqn:E; [|reflexivity].
  apply title_required_test in E. contradiction.
Qed.

(** C7 (amended): [createTask] checks its input before anything else.
    When the trimmed title is empty, or longer than 500, or the description
    is present and longer than 2000 (untrimmed, which covers every
    description whose trimmed length exceeds 2000), the call throws a
    [TaskError] with the cells untouched and no query sent.  When the user
    is present, the trimmed title is non-empty and at most 500 long, and
    the description is missing or at most 2000 long untrimmed, nothing is
    thrown: the error cell is cleared and the insert is sent with the
    trimmed title. *)
Theorem createTask_validates_first (userId : option JSString)
    (input : CreateTaskInput) (h : Hook) (clk : Clock) :
  ((trim (in_title input) = []
    \/ 500 < js_length (trim (in_title input))
    \/ (exists d, in_description input = Some d
                  /\ (2000 < js_length (trim d) \/ 2000 < js_length d))) ->
   exists msg, run clk (createTask userId input) h = (h, Rejected (TaskError msg None)))
  /\ (forall uid,
        userId = Some uid -> truthy uid = true ->
        trim (in_title input) <> [] ->
        js_length (trim (in_title input)) <= 500 ->
        (forall d, in_description input = Some d -> js_length d <= 2000) ->
        exists row k,
          run clk (createTask userId input) h
          = (with_error None h, Pending (InsertTask row) k)
          /\ nt_user_id row = uid /\ nt_title row = trim (in_title input)).
Proof.
  split.
  - intros Hbad. unfold createTask, with_user.
    destruct userId as [uid|]; [destruct (truthy uid)|];
      try (eexists; reflexivity).
    destruct (negb (truthy (trim (in_title input)))
              || (js_length (trim (in_title input)) =? 0)) eqn:E1;
      [eexists; reflexivity|].
    destruct (js_length (trim (in_title input)) >? 500) eqn:E2;
      [eexists; reflexivity|].
    destruct Hbad as [H|[H|[d [Hd H]]]].
    + apply title_required_test in H. congruence.
    + apply gtb_true in H. congruence.
    + rewrite Hd.
      assert (2000 < js_length d) as Hlen
        by (pose proof (trim_length d); lia).
      assert (truthy d = true) as Ht by (apply truthy_length; lia).
      rewrite Ht, (gtb_true _ _ Hlen). simpl. eexists; reflexivity.
  - intros uid -> Hu Hne Hlen Hdesc. unfold createTask, with_user.
    rewrite Hu, (title_required_pass _ Hne), (gtb_false _ _ Hlen).
    assert (match in_description input with
            | Some d => truthy d && (js_length d >? 2000)
            | None => false
            end = false) as ->.
    { destruct (in_description input) as [d|]; [|reflexivity].
      rewrite (gtb_false _ _ (Hdesc d eq_refl)). apply andb_false_r. }
    simpl. eexists. eexists. split; [reflexivity|]. split; reflexivity.
Qed.

Lemma createTask_validates_first_witness :
  trim (lit "   ") = []
  /\ exists msg,
       run clock0 (createTask (Some (lit "A")) (mkInput (lit "   ") None None None))
         initial_hook
       = (initial_hook, Rejected (TaskError msg None)).
Proof.
  split; [reflexivity|].
  apply (proj1 (createTask_validates_first (Some (lit "A"))
                  (mkInput (lit "   ") None None None) initial_hook clock0)).
  left. reflexivity.
Defined.

(** ** [toggleTask] without a user and after teardown *)

(** C8: [toggleTask] has no check of [userId].  Without a user it flips the
    task in the collection and sends the update with an undefined user id;
    it does not throw. *)
Theorem toggleTask_without_user (taskId : JSString) (currentStatus : bool)
    (h : Hook) (clk : Clock) :
  exists k,
    run clk (toggleTask None taskId currentStatus) h
    = (with_tasks (map (fun task => if str_eqb (id task) taskId
                                    then set_complete (negb currentStatus) task
                                    else task)) h,
       Pending (UpdateComplete (negb currentStatus) taskId None) k).
Proof. eexists. reflexivity. Qed.

(** C9: the completion of [toggleTask] does not read [isMountedRef].  With
    the flag cleared, a failed update still rewrites the collection and
    sets the error cell; it does so in the state reached by unmounting
    while the update is awaited, and in the one reached by the session
    ending, where the effect has set the flag again. *)
Theorem toggle_completion_ignores_teardown :
  (forall userId taskId b clk clk' h h' r e,
     res_error r = Some e -> isMountedRef h' = false ->
     let h2 := fst (run clk' (resume (snd (run clk (toggleTask userId taskId b) h)) r) h') in
     tasks h2 = map (fun task => if str_eqb (id task) taskId
                                 then set_complete b task else task) (tasks h')
     /\ error h2 = Some "Failed to toggle task"%string)
  /\ (reachable unmounted_A
      /\ isMountedRef (hook unmounted_A) = false
      /\ error (hook unmounted_A) = None
      /\ is_complete (hd (task_of "" "" false) (tasks (hook unmounted_A))) = true
      /\ exists m, step (Respond 0 failed_response clock0) unmounted_A = Some m
                   /\ error (hook m) = Some "Failed to toggle task"%string
                   /\ is_complete (hd (task_of "" "" false) (tasks (hook m))) = false)
  /\ (reachable signed_out_A
      /\ userId signed_out_A = None
      /\ channelRef (hook signed_out_A) = None
      /\ exists m, step (Respond 0 failed_response clock0) signed_out_A = Some m
                   /\ error (hook m) = Some "Failed to toggle task"%string
                   /\ tasks (hook m) <> tasks (hook signed_out_A)).
Proof.
  split; [|split].
  - intros u taskId b clk clk' h h' r e He Hm. unfold toggleTask. simpl.
    rewrite He. simpl. split; reflexivity.
  - split; [|split; [|split; [|split]]]; try reflexivity.
    + apply (steps_reachable [Call (Toggle (lit "t1") false) clock0; Unmount] fetched_A).
      * exact fetched_A_reachable.
      * simpl. tauto.
      * reflexivity.
    + eexists. split; [reflexivity|]. split; reflexivity.
  - split; [|split; [|split]]; try reflexivity.
    + apply (steps_reachable
               [Call (Toggle (lit "t1") false) clock0; SetUser None clock0] fetched_A).
      * exact fetched_A_reachable.
      * simpl. tauto.
      * reflexivity.
    + eexists. split; [reflexivity|]. split; [reflexivity|].
      vm_compute. discriminate.
Qed.

Lemma toggle_completion_ignores_teardown_witness :
  res_error failed_response = Some (mkPgError (lit "23505"))
  /\ isMountedRef (hook unmounted_A) = false
  /\ error (fst (run clock0
                   (resume (snd (run clock0 (toggleTask (Some (lit "A")) (lit "t1") false)
                                   (hook fetched_A)))
                      failed_response)
                   (hook unmounted_A)))
     = Some "Failed to toggle task"%string.
Proof.
  split; [reflexivity|]. split; [reflexivity|].
  apply (proj1 toggle_completion_ignores_teardown (Some (lit "A")) (lit "t1") false
           clock0 clock0 (hook fetched_A) (hook unmounted_A) failed_response
           (mkPgError (lit "23505")));
    reflexivity.
Defined.

(** ** The title of an update *)

(** C10: [updateTask] checks the trimmed title and then uses the title as
    it was given.  For a patch with title [t] whose trimmed value is
    non-empty and at most 500 long, the task with the given id gets the
    title [t] in the collection at once, the update sent to the store
    carries the same patch with title [t], and a successful answer changes
    nothing more. *)
Theorem updateTask_title_verbatim (uid taskId t : JSString) (updates : Updates)
    (h : Hook) (clk clk' : Clock) :
  truthy uid = true -> up_title updates = Some t ->
  trim t <> [] -> js_length (trim t) <= 500 ->
  let h1 := fst (run clk (updateTask (Some uid) taskId updates) h) in
  let res := snd (run clk (updateTask (Some uid) taskId updates) h) in
  (forall i task, nth_error (tasks h) i = Some task ->
     exists task', nth_error (tasks h1) i = Some task'
       /\ (id task = taskId -> title task' = t /\ id task' = taskId)
       /\ (id task <> taskId -> task' = task))
  /\ (exists k, res = Pending (UpdateFields updates taskId uid) k)
  /\ (forall r h', res_error r = None ->
        run clk' (resume res r) h' = (h', Resolved tt)).
Proof.
  intros Hu Ht Hne Hlen. unfold updateTask, with_user.
  rewrite Hu, Ht. cbv zeta.
  rewrite (title_required_pass _ Hne), (gtb_false _ _ Hlen). simpl.
  split; [|split].
  - intros i task Hi. rewrite nth_error_map, Hi. simpl.
    eexists. split; [reflexivity|].
    destruct (str_eqb (id task) taskId) eqn:E.
    + split; [|apply str_eqb_eq in E; contradiction].
      intros _. unfold spread. simpl. rewrite Ht.
      apply str_eqb_eq in E. tauto.
    + apply str_eqb_neq in E. tauto.
  - eexists. reflexivity.
  - intros r h' He. rewrite He. reflexivity.
Qed.

Lemma updateTask_title_verbatim_witness :
  truthy (lit "A") = true
  /\ up_title spaced_title = Some (lit " a ")
  /\ trim (lit " a ") <> []
  /\ js_length (trim (lit " a ")) <= 500
  /\ trim (lit " a ") <> lit " a "
  /\ map title (tasks (fst (run clock0 (updateTask (Some (lit "A")) (lit "t1") spaced_title)
                             one_task_hook)))
     = [lit " a "]
  /\ exists k, snd (run clock0 (updateTask (Some (lit "A")) (lit "t1") spaced_title)
                      one_task_hook)
               = Pending (UpdateFields spaced_title (lit "t1") (lit "A")) k.
Proof.
  split; [reflexivity|]. split; [reflexivity|].
  split; [vm_compute; discriminate|]. split; [vm_compute; discriminate|].
  split; [vm_compute; discriminate|]. split; [reflexivity|].
  apply (updateTask_title_verbatim (lit "A") (lit "t1") (lit " a ") spaced_title
           one_task_hook clock0 clock0);
    [reflexivity | reflexivity | vm_compute; discriminate | vm_compute; discriminate].
Defined.

(** * The earlier hook [hooks/useTask.ts] *)

Lemma synced_bind {A B : Type} (p : Prog A) (g : A -> Prog B) :
  synced p -> (forall a, synced (g a)) -> synced (bind p g).
Proof.
  induction 1; intros Hg; simpl; try (constructor; now auto).
  - apply Hg.
Qed.

Lemma synced_try_catch {A : Type} (p : Prog A) (handler : Thrown -> Prog A) :
  synced p -> (forall e, synced (handler e)) -> synced (try_catch p handler).
Proof.
  induction 1; intros Hh; simpl; try (constructor; now auto).
  - apply Hh.
Qed.

Lemma synced_try_finally {A : Type} (p : Prog A) (final : Prog unit) :
  synced p -> synced final -> synced (try_finally p final).
Proof.
  induction 1; intros Hf; simpl; try (constructor; now auto).
  - apply synced_bind; [assumption | intros; constructor].
  - apply synced_bind; [assumption | intros; constructor].
Qed.

Lemma fetched_stats_or_empty clk data :
  fetched_stats clk data = fetched_stats clk (Some (or_empty data)).
Proof. now destruct data. Qed.

Lemma run_synced clk (p : Prog unit) (h : Hook) :
  synced p -> stats_of_tasks h ->
  stats_of_tasks (fst (run clk p h))
  /\ Forall synced_suspended (suspended (snd (run clk p h))).
Proof.
  intros Hp. revert h.
  induction Hp; intros h HJ; simpl.
  - split; [assumption | constructor].
  - split; [assumption | constructor].
  - apply H0. exists clk. simpl. apply fetched_stats_or_empty.
  - apply IHHp. exact HJ.
  - apply IHHp. exact HJ.
  - apply H0. exact HJ.
  - split; [assumption|]. constructor; [exact H | constructor].
Qed.

Ltac synced_step :=
  match goal with
  | |- forall _, _ => intro
  | |- synced _ => progress cbn [bind try_catch try_finally]
  | |- synced (bind _ _) => apply synced_bind
  | |- synced (try_catch _ _) => apply synced_try_catch
  | |- synced (try_finally _ _) => apply synced_try_finally
  | |- synced (if ?b then _ else _) => destruct b
  | |- synced (match ?x with _ => _ end) => destruct x eqn:?
  | |- synced _ => constructor
  end.

Ltac synced_auto :=
  unfold with_user, setTasks, setLoading, setError, setStats, readMounted,
    readClock, await;
  repeat synced_step.

Lemma earlier_fetchTasks_synced userId : synced (useTask.fetchTasks userId).
Proof. unfold useTask.fetchTasks. synced_auto. Qed.

Lemma earlier_callback_synced m a : synced (useTask.callback m a).
Proof.
  destruct a; simpl.
  - apply earlier_fetchTasks_synced.
  - unfold useTask.createTask. synced_auto. apply earlier_fetchTasks_synced.
  - unfold useTask.updateTask. synced_auto. apply earlier_fetchTasks_synced.
  - unfold useTask.toggleTask. synced_auto. apply earlier_fetchTasks_synced.
  - unfold useTask.deleteTask. synced_auto. apply earlier_fetchTasks_synced.
Qed.

Lemma earlier_mount_synced u clk :
  stats_of_tasks (hook (useTask.mount u clk))
  /\ Forall synced_suspended (inflight (useTask.mount u clk)).
Proof.
  unfold useTask.mount.
  assert (stats_of_tasks initial_hook) as H0 by (exists clock0; reflexivity).
  pose proof (run_synced clk (useTask.fetchTasks u) initial_hook
                (earlier_fetchTasks_synced u) H0) as H.
  destruct (run clk (useTask.fetchTasks u) initial_hook) as [h res].
  exact H.
Qed.

Lemma earlier_step_synced e m m' :
  stats_of_tasks (hook m) /\ Forall synced_suspended (inflight m) ->
  useTask.step e m = Some m' ->
  stats_of_tasks (hook m') /\ Forall synced_suspended (inflight m').
Proof.
  intros [HJ HF] Hstep.
  destruct e as [|u clk| |payload clk|a clk|i r clk]; unfold useTask.step in Hstep.
  - destruct (alive m); [|discriminate]. cbn [negb] in Hstep.
    injection Hstep as <-. simpl. tauto.
  - destruct (alive m); [|discriminate]. cbn [negb] in Hstep.
    destruct (user_eqb u (userId m)).
    + injection Hstep as <-. simpl. tauto.
    + pose proof (run_synced clk (useTask.fetchTasks u) (hook m)
                    (earlier_fetchTasks_synced u) HJ) as H.
      destruct (run clk (useTask.fetchTasks u) (hook m)) as [h res].
      injection Hstep as <-. simpl in *.
      split; [tauto|]. apply Forall_app. tauto.
  - destruct (alive m); [|discriminate]. cbn [negb] in Hstep.
    injection Hstep as <-. simpl. tauto.
  - destruct (alive m); discriminate.
  - destruct (alive m); [|discriminate]. cbn [negb] in Hstep.
    pose proof (run_synced clk (useTask.callback m a) (hook m)
                  (earlier_callback_synced m a) HJ) as H.
    destruct (run clk (useTask.callback m a) (hook m)) as [h res].
    injection Hstep as <-. simpl in *.
    split; [tauto|]. apply Forall_app. tauto.
  - destruct (nth_error (inflight m) i) as [[q k]|] eqn:E; [|discriminate].
    assert (synced (k r)) as Hk.
    { rewrite Forall_forall in HF.
      apply (HF (q, k)). eapply nth_error_In; eassumption. }
    pose proof (run_synced clk (k r) (hook m) Hk HJ) as H.
    destruct (run clk (k r) (hook m)) as [h res].
    injection Hstep as <-. simpl in *.
    split; [tauto|].
    apply Forall_app. split; [now apply Forall_remove_nth | tauto].
Qed.

Lemma filter_negb_length (P : Task -> bool) l :
  Z.of_nat (List.length l) - Z.of_nat (List.length (filter P l))
  = Z.of_nat (List.length (filter (fun t => negb (P t)) l)).
Proof.
  induction l as [|t l IH]; [reflexivity|].
  cbn [filter]. destruct (P t); cbn [negb List.length];
    rewrite ?Nat2Z.inj_succ; lia.
Qed.

Lemma earlier_reachable_synced m :
  useTask.reachable m ->
  stats_of_tasks (hook m) /\ Forall synced_suspended (inflight m).
Proof.
  induction 1 as [u clk | m e m' _ IH Hstep].
  - apply earlier_mount_synced.
  - eapply earlier_step_synced; eassumption.
Qed.

(** A run either leaves the collection and the stats alone or ends with the
    stats computed from the collection at the time of the run. *)
Lemma run_synced_change clk (p : Prog unit) (h : Hook) :
  synced p ->
  (tasks (fst (run clk p h)) = tasks h /\ stats (fst (run clk p h)) = stats h)
  \/ stats (fst (run clk p h)) = fetched_stats clk (Some (tasks (fst (run clk p h)))).
Proof.
  intros Hp. revert h.
  induction Hp; intros h; simpl.
  - left. split; reflexivity.
  - left. split; reflexivity.
  - right.
    destruct (H0 clk (with_stats (fetched_stats clk data)
                        (with_tasks (fun _ => or_empty data) h))) as [[Ht Hs]|Hr].
    + rewrite Hs, Ht. simpl. apply fetched_stats_or_empty.
    + exact Hr.
  - destruct (IHHp (with_loading b h)) as [[Ht Hs]|Hr]; [left|right]; auto.
  - destruct (IHHp (with_error e h)) as [[Ht Hs]|Hr]; [left|right]; auto.
  - apply H0.
  - left. split; reflexivity.
Qed.

Lemma earlier_step_change e m m' :
  Forall synced_suspended (inflight m) ->
  useTask.step e m = Some m' ->
  (tasks (hook m') = tasks (hook m) /\ stats (hook m') = stats (hook m))
  \/ exists clk, event_clock e = Some clk
       /\ stats (hook m') = fetched_stats clk (Some (tasks (hook m'))).
Proof.
  intros HF Hstep.
  destruct e as [|u clk| |payload clk|a clk|i r clk]; unfold useTask.step in Hstep.
  - destruct (alive m); [|discriminate]. cbn [negb] in Hstep.
    injection Hstep as <-. left. split; reflexivity.
  - destruct (alive m); [|discriminate]. cbn [negb] in Hstep.
    destruct (user_eqb u (userId m)).
    + injection Hstep as <-. left. split; reflexivity.
    + pose proof (run_synced_change clk (useTask.fetchTasks u) (hook m)
                    (earlier_fetchTasks_synced u)) as H.
      destruct (run clk (useTask.fetchTasks u) (hook m)) as [h res].
      injection Hstep as <-. simpl in *.
      destruct H as [H|H]; [left; exact H | right; exists clk; auto].
  - destruct (alive m); [|discriminate]. cbn [negb] in Hstep.
    injection Hstep as <-. left. split; reflexivity.
  - destruct (alive m); discriminate.
  - destruct (alive m); [|discriminate]. cbn [negb] in Hstep.
    pose proof (run_synced_change clk (useTask.callback m a) (hook m)
                  (earlier_callback_synced m a)) as H.
    destruct (run clk (useTask.callback m a) (hook m)) as [h res].
    injection Hstep as <-. simpl in *.
    destruct H as [H|H]; [left; exact H | right; exists clk; auto].
  - destruct (nth_error (inflight m) i) as [[q k]|] eqn:E; [|discriminate].
    assert (synced (k r)) as Hk.
    { rewrite Forall_forall in HF.
      apply (HF (q, k)). eapply nth_error_In; eassumption. }
    pose proof (run_synced_change clk (k r) (hook m) Hk) as H.
    destruct (run clk (k r) (hook m)) as [h res].
    injection Hstep as <-. simpl in *.
    destruct H as [H|H]; [left; exact H | right; exists clk; auto].
Qed.

(** X1: with the earlier hook the stats are the summary of the collection
    on screen.  In every reachable state [total] is the length of the
    collection and [completed] and [pending] count its complete and its
    incomplete tasks.  The hook starts with an empty collection and stats
    of zero, and every event either leaves the collection and the stats as
    they are or ends with [overdue] being the number of overdue tasks of
    the new collection at the time of that event. *)
Theorem earlier_stats_follow_tasks (m : Machine) :
  useTask.reachable m ->
  total (stats (hook m)) = Z.of_nat (List.length (tasks (hook m)))
  /\ completed (stats (hook m))
     = Z.of_nat (List.length (filter is_complete (tasks (hook m))))
  /\ pending (stats (hook m))
     = Z.of_nat (List.length (filter (fun t => negb (is_complete t)) (tasks (hook m))))
  /\ (forall u clk,
        tasks (hook (useTask.mount u clk)) = []
        /\ stats (hook (useTask.mount u clk)) = mkStats 0 0 0 0)
  /\ (forall e m', useTask.step e m = Some m' ->
        (tasks (hook m') = tasks (hook m) /\ stats (hook m') = stats (hook m))
        \/ exists clk, event_clock e = Some clk
             /\ overdue (stats (hook m'))
                = Z.of_nat (List.length (filter (is_overdue clk) (tasks (hook m'))))).
Proof.
  intros Hr.
  destruct (earlier_reachable_synced m Hr) as [[clk HJ] HF].
  split; [|split; [|split; [|split]]].
  - rewrite HJ. unfold fetched_stats. simpl. f_equal. f_equal.
    clear. induction (tasks (hook m)); simpl; congruence.
  - rewrite HJ. reflexivity.
  - rewrite HJ. unfold fetched_stats. simpl.
    assert (Z.of_nat (List.length (filter (fun _ => true) (tasks (hook m))))
            = Z.of_nat (List.length (tasks (hook m)))) as ->.
    { f_equal. f_equal. clear. induction (tasks (hook m)); simpl; congruence. }
    apply filter_negb_length.
  - intros u clk'. unfold useTask.mount, useTask.fetchTasks, with_user.
    destruct u as [uid|]; [destruct (truthy uid)|]; simpl; split; reflexivity.
  - intros e m' Hstep.
    destruct (earlier_step_change e m m' HF Hstep) as [H|[clk' [He Hs]]];
      [left; exact H | right].
    exists clk'. split; [exact He|]. rewrite Hs. reflexivity.
Qed.

Lemma earlier_steps_reachable es m m' :
  useTask.reachable m -> useTask.steps es m = Some m' -> useTask.reachable m'.
Proof.
  revert m. induction es as [|e es IH]; simpl; intros m Hm Hs.
  - now injection Hs as <-.
  - destruct (useTask.step e m) as [m1|] eqn:E; [|discriminate].
    apply (IH m1); [|assumption].
    now apply (useTask.reach_event m e m1).
Qed.

Lemma earlier_session_A_reachable : useTask.reachable earlier_session_A.
Proof.
  apply (earlier_steps_reachable
           [ Respond 0 (ok_response [task_of "t1" "A" false; task_of "t2" "A" true]) clock0;
             Call (Toggle (lit "t1") false) clock0;
             Respond 0 (mkResponse None None) clock0;
             Respond 0 (ok_response [task_of "t1" "A" true; task_of "t2" "A" true]) clock0 ]
           (useTask.mount (Some (lit "A")) clock0)).
  - apply useTask.reach_first_render.
  - reflexivity.
Qed.

Lemma earlier_stats_follow_tasks_witness :
  useTask.reachable (useTask.mount (Some (lit "A")) clock0)
  /\ useTask.step (Respond 0 (ok_response [late_task]) due_clock)
       (useTask.mount (Some (lit "A")) clock0)
     = Some earlier_late_A
  /\ tasks (hook earlier_late_A) = [late_task]
  /\ overdue (stats (hook earlier_late_A)) = 1
  /\ ((tasks (hook earlier_late_A) = tasks (hook (useTask.mount (Some (lit "A")) clock0))
       /\ stats (hook earlier_late_A) = stats (hook (useTask.mount (Some (lit "A")) clock0)))
      \/ exists clk,
           event_clock (Respond 0 (ok_response [late_task]) due_clock) = Some clk
           /\ overdue (stats (hook earlier_late_A))
              = Z.of_nat (List.length (filter (is_overdue clk) (tasks (hook earlier_late_A))))).
Proof.
  split; [apply useTask.reach_first_render|]. split; [reflexivity|].
  split; [reflexivity|]. split; [reflexivity|].
  exact (proj2 (proj2 (proj2 (proj2
           (earlier_stats_follow_tasks (useTask.mount (Some (lit "A")) clock0)
              (useTask.reach_first_render (Some (lit "A")) clock0)))))
           (Respond 0 (ok_response [late_task]) due_clock) earlier_late_A eq_refl).
Defined.

Lemma earlier_toggle_witness_neq : Toggle (lit "t1") false <> Refresh.
Proof. discriminate. Qed.

(** X2: the earlier hook has no optimistic step.  A mutation (create,
    update, toggle, delete) leaves the collection and the stats as they
    are while the store is asked, and also when the store answers with an
    error. *)
Theorem earlier_mutations_wait_for_store (m : Machine) (a : Action)
    (clk clk' : Clock) (r : Response) (e : PgError) (h' : Hook) :
  a <> Refresh -> res_error r = Some e ->
  let h1 := fst (run clk (useTask.callback m a) (hook m)) in
  let res := snd (run clk (useTask.callback m a) (hook m)) in
  let h2 := fst (run clk' (resume res r) h') in
  tasks h1 = tasks (hook m) /\ stats h1 = stats (hook m)
  /\ tasks h2 = tasks h' /\ stats h2 = stats h'.
Proof.
  intros Ha He.
  destruct a as [|input|taskId updates|taskId b|taskId]; [congruence|..];
    simpl;
    unfold useTask.createTask, useTask.updateTask, useTask.toggleTask,
      useTask.deleteTask, with_user;
    (destruct (userId m) as [uid|]; [destruct (truthy uid)|]);
    simpl; try tauto.
  - destruct (negb (truthy (trim (in_title input)))); simpl; [tauto|].
    rewrite He. simpl. tauto.
  - rewrite He. simpl. tauto.
  - rewrite He. simpl. tauto.
  - rewrite He. simpl. tauto.
Qed.

Lemma earlier_mutations_wait_for_store_witness :
  Toggle (lit "t1") false <> Refresh
  /\ res_error failed_response = Some (mkPgError (lit "23505"))
  /\ tasks (fst (run clock0
                   (resume (snd (run clock0
                                   (useTask.callback earlier_session_A (Toggle (lit "t1") false))
                                   (hook earlier_session_A)))
                      failed_response)
                   (hook earlier_session_A)))
     = tasks (hook earlier_session_A).
Proof.
  split; [exact earlier_toggle_witness_neq|]. split; [reflexivity|].
  exact (proj1 (proj2 (proj2
           (earlier_mutations_wait_for_store earlier_session_A (Toggle (lit "t1") false)
              clock0 clock0 failed_response (mkPgError (lit "23505"))
              (hook earlier_session_A) earlier_toggle_witness_neq eq_refl)))).
Defined.

(** X3: in the earlier hook every mutation that the store accepts goes on
    to fetch the collection of the same user again. *)
Theorem earlier_mutations_refetch (m : Machine) (a : Action) (uid : JSString)
    (clk clk' : Clock) (q : Query) (k : Response -> Prog unit)
    (r : Response) (h' : Hook) :
  userId m = Some uid -> a <> Refresh ->
  snd (run clk (useTask.callback m a) (hook m)) = Pending q k ->
  res_error r = None ->
  exists k', snd (run clk' (k r) h') = Pending (SelectTasks uid) k'.
Proof.
  intros Hu Ha Hp He.
  destruct a as [|input|taskId updates|taskId b|taskId]; [congruence|..];
    simpl in Hp;
    unfold useTask.createTask, useTask.updateTask, useTask.toggleTask,
      useTask.deleteTask, useTask.fetchTasks, with_user in Hp;
    rewrite Hu in Hp;
    (destruct (truthy uid) eqn:Et; [|discriminate]).
  - destruct (negb (truthy (trim (in_title input)))); [discriminate|].
    simpl in Hp. injection Hp as <- <-. rewrite He. simpl.
    eexists. reflexivity.
  - simpl in Hp. injection Hp as <- <-. rewrite He. simpl.
    eexists. reflexivity.
  - simpl in Hp. injection Hp as <- <-. rewrite He. simpl.
    eexists. reflexivity.
  - simpl in Hp. injection Hp as <- <-. rewrite He. simpl.
    eexists. reflexivity.
Qed.

Lemma earlier_mutations_refetch_witness :
  exists k',
    snd (run clock0
           (resume (snd (run clock0
                           (useTask.callback earlier_session_A (Toggle (lit "t1") false))
                           (hook earlier_session_A)))
              (mkResponse None None))
           (hook earlier_session_A))
    = Pending (SelectTasks (lit "A")) k'.
Proof.
  eapply (earlier_mutations_refetch earlier_session_A (Toggle (lit "t1") false) (lit "A")
            clock0 clock0);
    [reflexivity | exact earlier_toggle_witness_neq | reflexivity | reflexivity].
Defined.

(** * More of the realtime hook *)

(** ** Trimming *)

Lemma trimStart_head c s' s :
  trimStart s = c :: s' -> is_white_space c = false.
Proof.
  induction s as [|x s IH]; simpl; [discriminate|].
  destruct (is_white_space x) eqn:E; [exact IH|].
  intros H. injection H as <- _. exact E.
Qed.

Lemma trimStart_fixed c s :
  is_white_space c = false -> trimStart (c :: s) = c :: s.
Proof. intros H. simpl. now rewrite H. Qed.

Lemma trimStart_twice s : trimStart (trimStart s) = trimStart s.
Proof.
  destruct (trimStart s) as [|c s'] eqn:E; [reflexivity|].
  apply trimStart_fixed. eapply trimStart_head. eassumption.
Qed.

Lemma trimStart_snoc l c :
  is_white_space c = false -> exists l', trimStart (l ++ [c]) = l' ++ [c].
Proof.
  intros H. induction l as [|x l IH]; simpl.
  - rewrite H. now exists [].
  - destruct (is_white_space x); [exact IH|]. now exists (x :: l).
Qed.

Lemma trimEnd_head c s :
  is_white_space c = false -> exists s', trimEnd (c :: s) = c :: s'.
Proof.
  intros H. unfold trimEnd. simpl.
  destruct (trimStart_snoc (rev s) c H) as [l' ->].
  rewrite rev_app_distr. simpl. now exists (rev l').
Qed.

Lemma trimEnd_twice s : trimEnd (trimEnd s) = trimEnd s.
Proof.
  unfold trimEnd. now rewrite rev_involutive, trimStart_twice.
Qed.

Lemma trim_twice s : trim (trim s) = trim s.
Proof.
  unfold trim.
  destruct (trimStart s) as [|c s'] eqn:E; [reflexivity|].
  pose proof (trimStart_head c s' s E) as Hc.
  destruct (trimEnd_head c s' Hc) as [u Hu].
  rewrite Hu, (trimStart_fixed c u Hc), <- Hu.
  apply trimEnd_twice.
Qed.


(** ** Fetching *)

(** X4: [fetchTasks] does not throw to its caller, in either hook: it
    never rejects before its query, and its completion resolves whatever
    the store answers and whatever the cells hold. *)
Theorem fetchTasks_never_rejects (userId : option JSString) (clk clk' : Clock)
    (h h' : Hook) (r : Response) :
  (forall e, snd (run clk (fetchTasks userId) h) <> Rejected e)
  /\ snd (run clk' (resume (snd (run clk (fetchTasks userId) h)) r) h') = Resolved tt
  /\ (forall e, snd (run clk (useTask.fetchTasks userId) h) <> Rejected e)
  /\ snd (run clk' (resume (snd (run clk (useTask.fetchTasks userId) h)) r) h')
     = Resolved tt.
Proof.
  unfold fetchTasks, useTask.fetchTasks, with_user.
  destruct userId as [uid|]; [destruct (truthy uid)|]; simpl;
    repeat split; try discriminate; try reflexivity.
  - destruct (res_error r); simpl; destruct (isMountedRef h') eqn:Em; simpl;
      rewrite ?Em; reflexivity.
  - destruct (res_error r); reflexivity.
Qed.

(** X5: once [isMountedRef] is cleared, neither the completion of a fetch
    nor a push event changes any cell, whatever the store answers or
    pushes. *)
Theorem cleared_flag_stops_fetch_and_push (userId : option JSString)
    (clk clk' : Clock) (h h' : Hook) (r : Response) (payload : Payload) :
  isMountedRef h' = false ->
  fst (run clk' (resume (snd (run clk (fetchTasks userId) h)) r) h') = h'
  /\ run clk' (onPostgresChanges payload) h' = (h', Resolved tt).
Proof.
  intros Hm. split.
  - unfold fetchTasks, with_user.
    destruct userId as [uid|]; [destruct (truthy uid)|]; simpl; try reflexivity.
    destruct (res_error r); simpl; repeat (rewrite Hm; simpl); reflexivity.
  - rewrite run_onPostgresChanges, Hm. reflexivity.
Qed.

Lemma cleared_flag_stops_fetch_and_push_witness :
  isMountedRef (hook unmounted_A) = false
  /\ fst (run clock0
            (resume (snd (run clock0 (fetchTasks (Some (lit "A"))) initial_hook))
               (ok_response [task_of "t9" "A" false]))
            (hook unmounted_A))
     = hook unmounted_A.
Proof.
  split; [reflexivity|].
  exact (proj1 (cleared_flag_stops_fetch_and_push (Some (lit "A")) clock0 clock0
                  initial_hook (hook unmounted_A)
                  (ok_response [task_of "t9" "A" false])
                  (INSERT (task_of "t9" "A" false)) eq_refl)).
Defined.

(** X6: on a mounted hook every completion of a fetch ends with
    [loading = false].  When the store answers with an error, the error
    cell holds 'Failed to fetch tasks' and the collection and the stats are
    the ones from before: a failed fetch does not empty the collection. *)
Theorem fetch_completion_on_mounted_hook (uid : JSString) (clk clk' : Clock)
    (h h' : Hook) (r : Response) :
  truthy uid = true -> isMountedRef h' = true ->
  let h2 := fst (run clk' (resume (snd (run clk (fetchTasks (Some uid)) h)) r) h') in
  loading h2 = false
  /\ (forall e, res_error r = Some e ->
        error h2 = Some "Failed to fetch tasks"%string
        /\ tasks h2 = tasks h' /\ stats h2 = stats h')
  /\ (res_error r = None -> error h2 = error h').
Proof.
  intros Hu Hm. unfold fetchTasks, with_user. rewrite Hu. simpl.
  destruct (res_error r) as [e|]; simpl; repeat (rewrite Hm; simpl).
  - split; [reflexivity|]. split; [|discriminate].
    intros e' _. repeat split; reflexivity.
  - split; [reflexivity|]. split; [discriminate|]. reflexivity.
Qed.

Lemma fetch_completion_on_mounted_hook_witness :
  truthy (lit "A") = true /\ isMountedRef one_task_hook = true
  /\ loading (fst (run clock0
                     (resume (snd (run clock0 (fetchTasks (Some (lit "A"))) initial_hook))
                        failed_response)
                     one_task_hook))
     = false.
Proof.
  split; [reflexivity|]. split; [reflexivity|].
  exact (proj1 (fetch_completion_on_mounted_hook (lit "A") clock0 clock0 initial_hook
                  one_task_hook failed_response eq_refl eq_refl)).
Defined.

(** ** The subscription and the session *)

Lemma run_refs {A : Type} clk (p : Prog A) (h : Hook) :
  isMountedRef (fst (run clk p h)) = isMountedRef h
  /\ channelRef (fst (run clk p h)) = channelRef h.
Proof.
  revert h. induction p; intros h; simpl; auto.
  - destruct (IHp (with_tasks f h)) as [-> ->]. auto.
  - destruct (IHp (with_loading b h)) as [-> ->]. auto.
  - destruct (IHp (with_error e h)) as [-> ->]. auto.
  - destruct (IHp (with_stats s h)) as [-> ->]. auto.
Qed.

Lemma lifecycle_same_refs m m' :
  userId m' = userId m -> alive m = true -> alive m' = true ->
  isMountedRef (hook m') = isMountedRef (hook m) ->
  channelRef (hook m') = channelRef (hook m) ->
  lifecycle m -> lifecycle m'.
Proof.
  unfold lifecycle. intros Hu Ha Ha' Hm Hc (H1 & H2 & H3).
  rewrite Hu, Ha', Hm, Hc.
  split; [auto|]. split.
  - intros uid t E. destruct (H2 uid t E) as (_ & ? & ?). auto.
  - intros _. now apply H3.
Qed.

Lemma lifecycle_mount u clk : lifecycle (mount u clk).
Proof.
  unfold mount, effect, with_user.
  destruct u as [uid|]; [destruct (truthy uid) eqn:Eu|].
  - pose proof (run_refs clk (fetchTasks (Some uid)) (with_mounted true initial_hook))
      as [H1 H2].
    destruct (run clk (fetchTasks (Some uid)) (with_mounted true initial_hook))
      as [h res].
    unfold lifecycle. simpl in *.
    split; [auto|]. split.
    + intros uid' t E. injection E as <- <-. auto.
    + intros _ uid' E _. injection E as <-. eauto.
  - unfold lifecycle. simpl.
    split; [auto|]. split; [discriminate|].
    intros _ uid' E. injection E as <-. congruence.
  - unfold lifecycle. simpl.
    split; [auto|]. split; discriminate.
Qed.

Lemma cleanup_channel u h :
  (forall uid t, channelRef h = Some (uid, t) -> u = Some uid /\ truthy uid = true) ->
  channelRef (cleanup u h) = None.
Proof.
  intros H. unfold cleanup, with_user.
  destruct (channelRef h) as [[uid t]|] eqn:E.
  - destruct (H uid t eq_refl) as [-> Hu]. rewrite Hu. simpl. now rewrite E.
  - destruct u as [uid|]; [destruct (truthy uid)|]; simpl; now rewrite ?E.
Qed.

Lemma lifecycle_step e m m' :
  lifecycle m -> step e m = Some m' -> lifecycle m'.
Proof.
  intros HL Hstep.
  destruct e as [|u clk| |payload clk|a clk|i r clk]; unfold step in Hstep.
  - destruct (alive m) eqn:Ea; [|discriminate]. cbn [negb] in Hstep.
    injection Hstep as <-.
    apply (lifecycle_same_refs m); auto.
  - destruct (alive m) eqn:Ea; [|discriminate]. cbn [negb] in Hstep.
    destruct (user_eqb u (userId m)).
    + injection Hstep as <-. apply (lifecycle_same_refs m); auto.
    + assert (channelRef (cleanup (userId m) (hook m)) = None) as Hc.
      { apply cleanup_channel. intros uid t E.
        destruct HL as (_ & H2 & _). destruct (H2 uid t E) as (_ & ? & ?). auto. }
      unfold effect, with_user in Hstep.
      destruct u as [uid|]; [destruct (truthy uid) eqn:Eu|].
      * pose proof (run_refs clk (fetchTasks (Some uid))
                      (with_mounted true (cleanup (userId m) (hook m)))) as [H1 H2].
        destruct (run clk (fetchTasks (Some uid))
                    (with_mounted true (cleanup (userId m) (hook m)))) as [h res].
        injection Hstep as <-. unfold lifecycle. simpl in *.
        split; [auto|]. split.
        -- intros uid' t E. injection E as <- <-. auto.
        -- intros _ uid' E _. injection E as <-. eauto.
      * injection Hstep as <-. unfold lifecycle. simpl.
        rewrite Hc. split; [auto|]. split; [discriminate|].
        intros _ uid' E. injection E as <-. congruence.
      * injection Hstep as <-. unfold lifecycle. simpl.
        rewrite Hc. split; [auto|]. split; discriminate.
  - destruct (alive m) eqn:Ea; [|discriminate]. cbn [negb] in Hstep.
    injection Hstep as <-.
    assert (channelRef (cleanup (userId m) (hook m)) = None) as Hc.
    { apply cleanup_channel. intros uid t E.
      destruct HL as (_ & H2 & _). destruct (H2 uid t E) as (_ & ? & ?). auto. }
    unfold lifecycle. simpl. rewrite Hc.
    split; [discriminate|]. split; discriminate.
  - destruct (alive m) eqn:Ea; [|discriminate]. cbn [negb] in Hstep.
    destruct (channelRef (hook m)) eqn:Ec; [|discriminate].
    pose proof (run_refs clk (onPostgresChanges payload) (hook m)) as [H1 H2].
    destruct (run clk (onPostgresChanges payload) (hook m)) as [h res].
    injection Hstep as <-.
    apply (lifecycle_same_refs m); simpl in *; auto; congruence.
  - destruct (alive m) eqn:Ea; [|discriminate]. cbn [negb] in Hstep.
    pose proof (run_refs clk (callback m a) (hook m)) as [H1 H2].
    destruct (run clk (callback m a) (hook m)) as [h res].
    injection Hstep as <-.
    apply (lifecycle_same_refs m); simpl in *; auto.
  - destruct (nth_error (inflight m) i) as [[q k]|]; [|discriminate].
    pose proof (run_refs clk (k r) (hook m)) as [H1 H2].
    destruct (run clk (k r) (hook m)) as [h res].
    injection Hstep as <-.
    unfold lifecycle in *. simpl in *. rewrite H1, H2. exact HL.
Qed.

(** X7: in every reachable state of the realtime hook, [isMountedRef] is
    set while the component is alive; an open channel means the component
    is alive and the channel filters on the current, non-empty [userId];
    and an alive component with a user has a channel.  So after an unmount
    no channel is left, and a channel of a previous user never stays
    open. *)
Theorem subscription_follows_session (m : Machine) :
  reachable m ->
  (alive m = true -> isMountedRef (hook m) = true)
  /\ (forall uid t, channelRef (hook m) = Some (uid, t) ->
        alive m = true /\ userId m = Some uid /\ truthy uid = true)
  /\ (alive m = true -> forall uid, userId m = Some uid -> truthy uid = true ->
        exists t, channelRef (hook m) = Some (uid, t)).
Proof.
  intros Hr. change (lifecycle m).
  induction Hr as [u clk | m e m' _ IH _ Hstep].
  - apply lifecycle_mount.
  - eapply lifecycle_step; eassumption.
Qed.

Lemma subscription_follows_session_witness :
  reachable switched_to_B
  /\ forall uid t, channelRef (hook switched_to_B) = Some (uid, t) ->
       alive switched_to_B = true /\ userId switched_to_B = Some uid
       /\ truthy uid = true.
Proof.
  split; [exact switched_to_B_reachable|].
  exact (proj1 (proj2 (subscription_follows_session switched_to_B
                         switched_to_B_reachable))).
Defined.

(** ** Loading *)

Section SettersFacts.

Variable Q : Hook -> Hook -> Prop.
Hypothesis Q_refl : forall h, Q h h.
Hypothesis Q_trans : forall h1 h2 h3, Q h1 h2 -> Q h2 h3 -> Q h1 h3.

Lemma within_bind {A B : Type} (p : Prog A) (g : A -> Prog B) :
  setters_within Q p -> (forall a, setters_within Q (g a)) ->
  setters_within Q (bind p g).
Proof.
  induction 1; intros Hg; simpl; try (constructor; now auto).
  apply Hg.
Qed.

Lemma within_try_catch {A : Type} (p : Prog A) (handler : Thrown -> Prog A) :
  setters_within Q p -> (forall e, setters_within Q (handler e)) ->
  setters_within Q (try_catch p handler).
Proof.
  induction 1; intros Hh; simpl; try (constructor; now auto).
  apply Hh.
Qed.

Lemma within_try_finally {A : Type} (p : Prog A) (final : Prog unit) :
  setters_within Q p -> setters_within Q final ->
  setters_within Q (try_finally p final).
Proof.
  induction 1; intros Hf; simpl; try (constructor; now auto).
  - apply within_bind; [assumption | intros; constructor].
  - apply within_bind; [assumption | intros; constructor].
Qed.

Lemma within_when (b : bool) (p : Prog unit) :
  setters_within Q p -> setters_within Q (when b p).
Proof. destruct b; simpl; [tauto | constructor]. Qed.

Lemma run_within clk (p : Prog unit) (h : Hook) :
  setters_within Q p ->
  Q h (fst (run clk p h))
  /\ Forall (within_suspended Q) (suspended (snd (run clk p h))).
Proof.
  intros Hp. revert h.
  induction Hp; intros h; simpl.
  - split; [apply Q_refl | constructor].
  - split; [apply Q_refl | constructor].
  - destruct (IHHp (with_tasks f h)) as [H1 H2]. split; [|exact H2].
    eapply Q_trans; [apply H | exact H1].
  - destruct (IHHp (with_loading b h)) as [H1 H2]. split; [|exact H2].
    eapply Q_trans; [apply H | exact H1].
  - destruct (IHHp (with_error e h)) as [H1 H2]. split; [|exact H2].
    eapply Q_trans; [apply H | exact H1].
  - destruct (IHHp (with_stats s h)) as [H1 H2]. split; [|exact H2].
    eapply Q_trans; [apply H | exact H1].
  - apply H0.
  - apply H0.
  - split; [apply Q_refl|]. constructor; [exact H | constructor].
Qed.

End SettersFacts.

Ltac within_step :=
  match goal with
  | |- forall _, _ => intro
  | |- setters_within _ _ => progress cbn [bind try_catch try_finally]
  | |- setters_within _ (bind _ _) => apply within_bind
  | |- setters_within _ (try_catch _ _) => apply within_try_catch
  | |- setters_within _ (try_finally _ _) => apply within_try_finally
  | |- setters_within _ (when _ _) => apply within_when
  | |- setters_within _ (if ?b then _ else _) => destruct b
  | |- setters_within _ (match ?x with _ => _ end) => destruct x eqn:?
  | |- setters_within _ _ => constructor
  end.

Ltac within_auto :=
  unfold with_user, setTasks, setLoading, setError, setStats, readMounted,
    readClock, await;
  repeat within_step;
  try (unfold loading_stays_off; simpl; now auto).

Lemma fetchTasks_loading userId : setters_within loading_stays_off (fetchTasks userId).
Proof. unfold fetchTasks. within_auto. Qed.

Lemma onPostgresChanges_loading payload :
  setters_within loading_stays_off (onPostgresChanges payload).
Proof. unfold onPostgresChanges. within_auto. Qed.

Lemma callback_loading m a : setters_within loading_stays_off (callback m a).
Proof.
  destruct a; simpl.
  - apply fetchTasks_loading.
  - unfold createTask. within_auto. apply fetchTasks_loading.
  - unfold updateTask. within_auto; apply fetchTasks_loading.
  - unfold toggleTask. within_auto.
  - unfold deleteTask. within_auto.
Qed.

Lemma loading_stays_off_refl h : loading_stays_off h h.
Proof. unfold loading_stays_off. auto. Qed.

Lemma loading_stays_off_trans h1 h2 h3 :
  loading_stays_off h1 h2 -> loading_stays_off h2 h3 -> loading_stays_off h1 h3.
Proof. unfold loading_stays_off. auto. Qed.

Lemma run_loading clk (p : Prog unit) h :
  setters_within loading_stays_off p ->
  loading_stays_off h (fst (run clk p h))
  /\ Forall (within_suspended loading_stays_off) (suspended (snd (run clk p h))).
Proof.
  apply run_within; [apply loading_stays_off_refl | apply loading_stays_off_trans].
Qed.

Lemma cleanup_loading u h : loading (cleanup u h) = loading h.
Proof.
  unfold cleanup, with_user. destruct u as [uid|]; [|reflexivity].
  destruct (truthy uid); [|reflexivity]. simpl. now destruct (channelRef h).
Qed.

Lemma effect_loading clk u h :
  loading_stays_off h (fst (effect clk u h))
  /\ Forall (within_suspended loading_stays_off) (snd (effect clk u h)).
Proof.
  unfold effect, with_user.
  destruct u as [uid|]; [destruct (truthy uid) eqn:E|];
    [| split; [unfold loading_stays_off; simpl; auto | constructor]..].
  pose proof (run_loading clk (fetchTasks (Some uid)) (with_mounted true h)
                (fetchTasks_loading (Some uid))) as [H1 H2].
  destruct (run clk (fetchTasks (Some uid)) (with_mounted true h)) as [h1 res].
  simpl in *. split; [exact H1 | exact H2].
Qed.

Lemma inflight_loading m :
  reachable m -> Forall (within_suspended loading_stays_off) (inflight m).
Proof.
  induction 1 as [u clk | m e m' _ IH _ Hstep].
  - unfold mount.
    pose proof (effect_loading clk u initial_hook) as [_ H].
    destruct (effect clk u initial_hook) as [h s]. exact H.
  - destruct e as [|u clk| |payload clk|a clk|i r clk]; unfold step in Hstep.
    + destruct (alive m); [|discriminate]. cbn [negb] in Hstep.
      injection Hstep as <-. exact IH.
    + destruct (alive m); [|discriminate]. cbn [negb] in Hstep.
      destruct (user_eqb u (userId m)); [injection Hstep as <-; exact IH|].
      pose proof (effect_loading clk u (cleanup (userId m) (hook m))) as [_ H].
      destruct (effect clk u (cleanup (userId m) (hook m))) as [h s].
      injection Hstep as <-. simpl. apply Forall_app. auto.
    + destruct (alive m); [|discriminate]. cbn [negb] in Hstep.
      injection Hstep as <-. exact IH.
    + destruct (alive m); [|discriminate]. cbn [negb] in Hstep.
      destruct (channelRef (hook m)); [|discriminate].
      pose proof (run_loading clk (onPostgresChanges payload) (hook m)
                    (onPostgresChanges_loading payload)) as [_ H].
      destruct (run clk (onPostgresChanges payload) (hook m)) as [h res].
      injection Hstep as <-. simpl. apply Forall_app. auto.
    + destruct (alive m); [|discriminate]. cbn [negb] in Hstep.
      pose proof (run_loading clk (callback m a) (hook m) (callback_loading m a))
        as [_ H].
      destruct (run clk (callback m a) (hook m)) as [h res].
      injection Hstep as <-. simpl. apply Forall_app. auto.
    + destruct (nth_error (inflight m) i) as [[q k]|] eqn:E; [|discriminate].
      assert (setters_within loading_stays_off (k r)) as Hk.
      { rewrite Forall_forall in IH.
        apply (IH (q, k)). eapply nth_error_In; eassumption. }
      pose proof (run_loading clk (k r) (hook m) Hk) as [_ H].
      destruct (run clk (k r) (hook m)) as [h res].
      injection Hstep as <-. simpl.
      apply Forall_app. split; [now apply Forall_remove_nth | exact H].
Qed.

(** X8: the realtime hook never sets [loading] back to [true].  Once a
    reachable state has [loading = false], every event keeps it so: a
    session change, a refresh and a mutation all leave the list shown
    instead of the loading state. *)
Theorem loading_never_returns (m m' : Machine) (e : Event) :
  reachable m -> step e m = Some m' ->
  loading (hook m) = false -> loading (hook m') = false.
Proof.
  intros Hr Hstep Hl.
  pose proof (inflight_loading m Hr) as HF.
  destruct e as [|u clk| |payload clk|a clk|i r clk]; unfold step in Hstep.
  - destruct (alive m); [|discriminate]. cbn [negb] in Hstep.
    injection Hstep as <-. exact Hl.
  - destruct (alive m); [|discriminate]. cbn [negb] in Hstep.
    destruct (user_eqb u (userId m)); [injection Hstep as <-; exact Hl|].
    pose proof (effect_loading clk u (cleanup (userId m) (hook m))) as [H _].
    destruct (effect clk u (cleanup (userId m) (hook m))) as [h s].
    injection Hstep as <-. simpl in *. apply H. now rewrite cleanup_loading.
  - destruct (alive m); [|discriminate]. cbn [negb] in Hstep.
    injection Hstep as <-. simpl. now rewrite cleanup_loading.
  - destruct (alive m); [|discriminate]. cbn [negb] in Hstep.
    destruct (channelRef (hook m)); [|discriminate].
    pose proof (run_loading clk (onPostgresChanges payload) (hook m)
                  (onPostgresChanges_loading payload)) as [H _].
    destruct (run clk (onPostgresChanges payload) (hook m)) as [h res].
    injection Hstep as <-. simpl in *. now apply H.
  - destruct (alive m); [|discriminate]. cbn [negb] in Hstep.
    pose proof (run_loading clk (callback m a) (hook m) (callback_loading m a))
      as [H _].
    destruct (run clk (callback m a) (hook m)) as [h res].
    injection Hstep as <-. simpl in *. now apply H.
  - destruct (nth_error (inflight m) i) as [[q k]|] eqn:E; [|discriminate].
    assert (setters_within loading_stays_off (k r)) as Hk.
    { rewrite Forall_forall in HF.
      apply (HF (q, k)). eapply nth_error_In; eassumption. }
    pose proof (run_loading clk (k r) (hook m) Hk) as [H _].
    destruct (run clk (k r) (hook m)) as [h res].
    injection Hstep as <-. simpl in *. now apply H.
Qed.

Lemma loading_never_returns_witness :
  reachable fetched_A
  /\ step (SetUser (Some (lit "B")) clock0) fetched_A = Some switched_to_B
  /\ loading (hook fetched_A) = false
  /\ loading (hook switched_to_B) = false.
Proof.
  split; [exact fetched_A_reachable|]. split; [reflexivity|]. split; [reflexivity|].
  exact (loading_never_returns fetched_A switched_to_B (SetUser (Some (lit "B")) clock0)
           fetched_A_reachable eq_refl eq_refl).
Defined.

(** ** Creating *)

Lemma trim_or_null_trimmed x d :
  trim_or_null x = Some d -> d <> [] /\ trim d = d.
Proof.
  unfold trim_or_null. destruct x as [y|]; [|discriminate].
  destruct (truthy (trim y)) eqn:E; [|discriminate].
  intros H. injection H as <-. split; [|apply trim_twice].
  intros H. rewrite H in E. discriminate.
Qed.

Lemma trim_or_null_length d d' :
  trim_or_null (Some d) = Some d' -> js_length d' <= js_length d.
Proof.
  unfold trim_or_null. destruct (truthy (trim d)); [|discriminate].
  intros H. injection H as <-. apply trim_length.
Qed.

(** X9: the row that [createTask] sends to the store is normalised.  It
    belongs to the user; its title is trimmed, not empty and at most 500
    long; its description is either null or a trimmed, non-empty string of
    at most 2000; its priority is the given one or [normal]; and its due
    date is never the empty string. *)
Theorem createTask_row_normalised (userId : option JSString)
    (input : CreateTaskInput) (h : Hook) (clk : Clock) (row : NewTask) :
  awaited (snd (run clk (createTask userId input) h)) = Some (InsertTask row) ->
  userId = Some (nt_user_id row)
  /\ nt_title row = trim (in_title input)
  /\ trim (nt_title row) = nt_title row
  /\ 0 < js_length (nt_title row) <= 500
  /\ (forall d, nt_description row = Some d ->
        d <> [] /\ trim d = d /\ js_length d <= 2000)
  /\ nt_priority row = match in_priority input with Some p => p | None => normal end
  /\ nt_due_date row <> Some [].
Proof.
  unfold createTask, with_user.
  destruct userId as [uid|]; [destruct (truthy uid)|]; try discriminate.
  destruct (negb (truthy (trim (in_title input)))
            || (js_length (trim (in_title input)) =? 0)) eqn:E1; [discriminate|].
  destruct (js_length (trim (in_title input)) >? 500) eqn:E2; [discriminate|].
  destruct (match in_description input with
            | Some d => truthy d && (js_length d >? 2000)
            | None => false
            end) eqn:E3; [discriminate|].
  simpl. intros H. injection H as <-. simpl.
  apply orb_false_iff in E1. destruct E1 as [E1 _].
  apply negb_false_iff, truthy_length in E1.
  rewrite Z.gtb_ltb in E2. apply Z.ltb_ge in E2.
  split; [reflexivity|]. split; [reflexivity|]. split; [apply trim_twice|].
  split; [lia|]. split; [|split; [reflexivity|]].
  - intros d Hd. destruct (trim_or_null_trimmed _ _ Hd) as [H1 H2].
    split; [exact H1|]. split; [exact H2|].
    destruct (in_description input) as [d0|]; [|discriminate].
    pose proof (trim_or_null_length _ _ Hd) as Hlen.
    destruct (truthy d0) eqn:Et.
    + simpl in E3. rewrite Z.gtb_ltb in E3. apply Z.ltb_ge in E3. lia.
    + destruct d0; [|discriminate]. unfold js_length in *. simpl in *. lia.
  - unfold or_null. destruct (in_due_date input) as [[|c d]|]; simpl; discriminate.
Qed.

Lemma createTask_row_normalised_witness :
  awaited (snd (run clock0 (createTask (Some (lit "A")) untidy_input) initial_hook))
  = Some (InsertTask (mkNewTask (lit "A") (lit "buy milk") None normal None))
  /\ trim (lit "buy milk") = lit "buy milk".
Proof.
  split; [reflexivity|].
  exact (proj1 (proj2 (proj2
           (createTask_row_normalised (Some (lit "A")) untidy_input initial_hook clock0
              (mkNewTask (lit "A") (lit "buy milk") None normal None) eq_refl)))).
Defined.

(** X10: when the store refuses the insert, [createTask] records 'Failed
    to create task' in the error cell and rejects with that [TaskError]
    and the store's code; it changes no other cell and fetches nothing. *)
Theorem createTask_store_failure (userId : option JSString)
    (input : CreateTaskInput) (h h' : Hook) (clk clk' : Clock)
    (row : NewTask) (r : Response) (e : PgError) :
  awaited (snd (run clk (createTask userId input) h)) = Some (InsertTask row) ->
  res_error r = Some e ->
  run clk' (resume (snd (run clk (createTask userId input) h)) r) h'
  = (with_error (Some "Failed to create task"%string) h',
     Rejected (TaskError "Failed to create task" (Some (pg_code e)))).
Proof.
  unfold createTask, with_user.
  destruct userId as [uid|]; [destruct (truthy uid)|]; try discriminate.
  destruct (negb (truthy (trim (in_title input)))
            || (js_length (trim (in_title input)) =? 0)); [discriminate|].
  destruct (js_length (trim (in_title input)) >? 500); [discriminate|].
  destruct (match in_description input with
            | Some d => truthy d && (js_length d >? 2000)
            | None => false
            end); [discriminate|].
  simpl. intros _ He. rewrite He. reflexivity.
Qed.

Lemma createTask_store_failure_witness :
  awaited (snd (run clock0 (createTask (Some (lit "A")) untidy_input) initial_hook))
  = Some (InsertTask (mkNewTask (lit "A") (lit "buy milk") None normal None))
  /\ res_error failed_response = Some (mkPgError (lit "23505"))
  /\ run clock0
       (resume (snd (run clock0 (createTask (Some (lit "A")) untidy_input) initial_hook))
          failed_response)
       one_task_hook
     = (with_error (Some "Failed to create task"%string) one_task_hook,
        Rejected (TaskError "Failed to create task" (Some (lit "23505")))).
Proof.
  split; [reflexivity|]. split; [reflexivity|].
  exact (createTask_store_failure (Some (lit "A")) untidy_input initial_hook
           one_task_hook clock0 clock0
           (mkNewTask (lit "A") (lit "buy milk") None normal None)
           failed_response (mkPgError (lit "23505")) eq_refl eq_refl).
Defined.

(** X11: when the store accepts the insert, [createTask] adds nothing to
    the collection itself: it fetches the collection of the user again.
    The call resolves whatever that fetch returns; on a mounted hook a
    fetch that succeeds replaces the collection by the fetched rows, and a
    fetch that fails leaves 'Failed to fetch tasks' in the error cell of a
    create that succeeded. *)
Theorem createTask_success_refetches (uid : JSString)
    (input : CreateTaskInput) (h h1 h2 : Hook) (clk clk1 clk2 : Clock)
    (row : NewTask) (r r2 : Response) :
  awaited (snd (run clk (createTask (Some uid) input) h)) = Some (InsertTask row) ->
  res_error r = None ->
  let res1 := snd (run clk1 (resume (snd (run clk (createTask (Some uid) input) h)) r) h1) in
  let h3 := fst (run clk2 (resume res1 r2) h2) in
  tasks (fst (run clk1 (resume (snd (run clk (createTask (Some uid) input) h)) r) h1))
  = tasks h1
  /\ awaited res1 = Some (SelectTasks uid)
  /\ snd (run clk2 (resume res1 r2) h2) = Resolved tt
  /\ (isMountedRef h2 = true -> res_error r2 = None ->
        tasks h3 = or_empty (res_data r2))
  /\ (isMountedRef h2 = true -> forall e, res_error r2 = Some e ->
        tasks h3 = tasks h2 /\ error h3 = Some "Failed to fetch tasks"%string).
Proof.
  unfold createTask, fetchTasks, with_user.
  destruct (truthy uid) eqn:Eu; [|discriminate].
  destruct (negb (truthy (trim (in_title input)))
            || (js_length (trim (in_title input)) =? 0)); [discriminate|].
  destruct (js_length (trim (in_title input)) >? 500); [discriminate|].
  destruct (match in_description input with
            | Some d => truthy d && (js_length d >? 2000)
            | None => false
            end); [discriminate|].
  simpl. intros _ He. rewrite He. simpl. rewrite ?Eu. simpl.
  split; [reflexivity|]. split; [reflexivity|]. split; [|split].
  - destruct (res_error r2); simpl; destruct (isMountedRef h2) eqn:Em; simpl;
      rewrite ?Em; reflexivity.
  - intros Hm He2. rewrite He2. simpl. repeat (rewrite Hm; simpl). reflexivity.
  - intros Hm e He2. rewrite He2. simpl. repeat (rewrite Hm; simpl).
    split; reflexivity.
Qed.

Lemma createTask_success_refetches_witness :
  awaited (snd (run clock0 (createTask (Some (lit "A")) untidy_input) initial_hook))
  = Some (InsertTask (mkNewTask (lit "A") (lit "buy milk") None normal None))
  /\ res_error (mkResponse None None) = None
  /\ awaited (snd (run clock0
                     (resume (snd (run clock0 (createTask (Some (lit "A")) untidy_input)
                                     initial_hook))
                        (mkResponse None None))
                     one_task_hook))
     = Some (SelectTasks (lit "A")).
Proof.
  split; [reflexivity|]. split; [reflexivity|].
  exact (proj1 (proj2
           (createTask_success_refetches (lit "A") untidy_input initial_hook
              one_task_hook one_task_hook clock0 clock0 clock0
              (mkNewTask (lit "A") (lit "buy milk") None normal None)
              (mkResponse None None) failed_response eq_refl eq_refl))).
Defined.

(** ** Updating *)

(** X12: [updateTask] throws before it touches anything when the user is
    missing or when the patch has a title that is blank or longer than 500
    after trimming: no cell changes, the error cell is not even cleared,
    and no query is sent.  In every other case, also for a patch without a
    title, it clears the error cell, applies the patch to the tasks with
    the given id and sends the update for that id and user. *)
Theorem updateTask_checks_first (userId : option JSString) (taskId : JSString)
    (updates : Updates) (h : Hook) (clk : Clock) :
  (((forall uid, userId = Some uid -> truthy uid = false)
    \/ (exists t, up_title updates = Some t
                  /\ (trim t = [] \/ 500 < js_length (trim t)))) ->
   exists msg, run clk (updateTask userId taskId updates) h
               = (h, Rejected (TaskError msg None)))
  /\ (forall uid,
        userId = Some uid -> truthy uid = true ->
        (forall t, up_title updates = Some t ->
                   trim t <> [] /\ js_length (trim t) <= 500) ->
        fst (run clk (updateTask userId taskId updates) h)
        = with_tasks (map (fun task => if str_eqb (id task) taskId
                                       then spread task updates else task))
            (with_error None h)
        /\ awaited (snd (run clk (updateTask userId taskId updates) h))
           = Some (UpdateFields updates taskId uid)).
Proof.
  split.
  - intros Hbad. unfold updateTask, with_user.
    destruct userId as [uid|]; [destruct (truthy uid) eqn:Eu|];
      try (eexists; reflexivity).
    destruct Hbad as [H|[t [Ht H]]].
    + specialize (H uid eq_refl). congruence.
    + rewrite Ht. cbv zeta. destruct H as [H|H].
      * apply title_required_test in H. rewrite H. eexists; reflexivity.
      * destruct (negb (truthy (trim t)) || (js_length (trim t) =? 0));
          [eexists; reflexivity|].
        rewrite (gtb_true _ _ H). eexists; reflexivity.
  - intros uid -> Hu Ht. unfold updateTask, with_user. rewrite Hu.
    destruct (up_title updates) as [t|]; [|split; reflexivity].
    destruct (Ht t eq_refl) as [H1 H2]. cbv zeta.
    rewrite (title_required_pass _ H1), (gtb_false _ _ H2).
    split; reflexivity.
Qed.

Lemma updateTask_checks_first_witness :
  (exists t, up_title blank_title_patch = Some t
             /\ (trim t = [] \/ 500 < js_length (trim t)))
  /\ (exists msg,
        run clock0 (updateTask (Some (lit "A")) (lit "t1") blank_title_patch)
          one_task_hook
        = (one_task_hook, Rejected (TaskError msg None)))
  /\ truthy (lit "A") = true
  /\ (forall t, up_title blanked_description_patch = Some t ->
                 trim t <> [] /\ js_length (trim t) <= 500)
  /\ map description (tasks noted_hook) = [Some (lit "notes")]
  /\ map description
       (tasks (fst (run clock0
                      (updateTask (Some (lit "A")) (lit "t7") blanked_description_patch)
                      noted_hook)))
     = [None].
Proof.
  assert (exists t, up_title blank_title_patch = Some t
                    /\ (trim t = [] \/ 500 < js_length (trim t))) as H.
  { exists (lit "  "). split; [reflexivity|]. left. reflexivity. }
  assert (forall t, up_title blanked_description_patch = Some t ->
                    trim t <> [] /\ js_length (trim t) <= 500) as Ht.
  { intros t E. injection E as <-. split; vm_compute; discriminate. }
  split; [exact H|]. split.
  - exact (proj1 (updateTask_checks_first (Some (lit "A")) (lit "t1") blank_title_patch
                    one_task_hook clock0) (or_intror H)).
  - split; [reflexivity|]. split; [exact Ht|]. split; [reflexivity|].
    rewrite (proj1 (proj2 (updateTask_checks_first (Some (lit "A")) (lit "t7")
                             blanked_description_patch noted_hook clock0)
                      (lit "A") eq_refl eq_refl Ht)).
    reflexivity.
Defined.

(** X13: when the store refuses the update, [updateTask] fetches the
    collection of the user again and, when that fetch is over, rejects
    with 'Failed to update task' and the store's code.  The error cell
    then holds that message, whatever the fetch returned; on a mounted
    hook a fetch that succeeded has replaced the collection by the fetched
    rows, so the optimistic patch is gone. *)
Theorem updateTask_store_failure (uid taskId : JSString) (updates : Updates)
    (h h1 h2 : Hook) (clk clk1 clk2 : Clock) (r r2 : Response) (e : PgError) :
  awaited (snd (run clk (updateTask (Some uid) taskId updates) h))
  = Some (UpdateFields updates taskId uid) ->
  res_error r = Some e ->
  let res1 :=
    snd (run clk1 (resume (snd (run clk (updateTask (Some uid) taskId updates) h)) r) h1) in
  let h3 := fst (run clk2 (resume res1 r2) h2) in
  awaited res1 = Some (SelectTasks uid)
  /\ snd (run clk2 (resume res1 r2) h2)
     = Rejected (TaskError "Failed to update task" (Some (pg_code e)))
  /\ error h3 = Some "Failed to update task"%string
  /\ (isMountedRef h2 = true -> res_error r2 = None ->
        tasks h3 = or_empty (res_data r2))
  /\ (res_error r2 <> None -> tasks h3 = tasks h2).
Proof.
  unfold updateTask, fetchTasks, with_user.
  destruct (truthy uid) eqn:Eu; [|discriminate].
  destruct (up_title updates) as [t|]; cbv zeta;
    [destruct (negb (truthy (trim t)) || (js_length (trim t) =? 0));
       [discriminate|];
     destruct (js_length (trim t) >? 500); [discriminate|]|];
    simpl; intros _ He; rewrite He; simpl; rewrite ?Eu; simpl;
    (split; [reflexivity|]);
    (destruct (res_error r2) as [e2|] eqn:E2; simpl;
     destruct (isMountedRef h2) eqn:Em; simpl; rewrite ?Em; simpl;
     repeat split; try reflexivity; try congruence).
Qed.

Lemma updateTask_store_failure_witness :
  awaited (snd (run clock0 (updateTask (Some (lit "A")) (lit "t1") priority_patch)
                  one_task_hook))
  = Some (UpdateFields priority_patch (lit "t1") (lit "A"))
  /\ res_error failed_response = Some (mkPgError (lit "23505"))
  /\ awaited (snd (run clock0
                     (resume (snd (run clock0
                                     (updateTask (Some (lit "A")) (lit "t1") priority_patch)
                                     one_task_hook))
                        failed_response)
                     one_task_hook))
     = Some (SelectTasks (lit "A")).
Proof.
  split; [reflexivity|]. split; [reflexivity|].
  exact (proj1 (updateTask_store_failure (lit "A") (lit "t1") priority_patch
                  one_task_hook one_task_hook one_task_hook clock0 clock0 clock0
                  failed_response failed_response (mkPgError (lit "23505"))
                  eq_refl eq_refl)).
Defined.

(** ** Optimistic steps *)

Lemma Forall2_map_self {A : Type} (R : A -> A -> Prop) (f : A -> A) l :
  (forall x, R x (f x)) -> Forall2 R l (map f l).
Proof. intros H. induction l; simpl; constructor; auto. Qed.

(** X14: the optimistic step of [toggleTask] and of [updateTask] keeps
    the collection in shape: position by position the task keeps its id,
    owner and timestamps, a task with another id is not touched, a toggle
    changes nothing but [is_complete], and an update never changes
    [is_complete].  No task is added, removed or moved. *)
Theorem optimistic_steps_keep_shape (userId : option JSString)
    (taskId : JSString) (b : bool) (updates : Updates) (h : Hook) (clk : Clock) :
  Forall2 (fun t t' => set_complete (is_complete t) t' = t
                       /\ (id t <> taskId -> t' = t))
    (tasks h) (tasks (fst (run clk (toggleTask userId taskId b) h)))
  /\ Forall2 (fun t t' => id t' = id t /\ user_id t' = user_id t
                          /\ is_complete t' = is_complete t
                          /\ created_at t' = created_at t
                          /\ updated_at t' = updated_at t
                          /\ (id t <> taskId -> t' = t))
       (tasks h) (tasks (fst (run clk (updateTask userId taskId updates) h))).
Proof.
  split.
  - unfold toggleTask. simpl. apply Forall2_map_self. intros t.
    destruct (str_eqb (id t) taskId) eqn:E.
    + apply str_eqb_eq in E. split; [now destruct t | contradiction].
    + split; [now destruct t | reflexivity].
  - assert (Forall2 (fun t t' => id t' = id t /\ user_id t' = user_id t
                                 /\ is_complete t' = is_complete t
                                 /\ created_at t' = created_at t
                                 /\ updated_at t' = updated_at t
                                 /\ (id t <> taskId -> t' = t))
              (tasks h) (tasks h)) as Hsame.
    { rewrite <- (map_id (tasks h)) at 2. apply Forall2_map_self. tauto. }
    unfold updateTask, with_user.
    destruct userId as [uid|]; [destruct (truthy uid)|]; simpl; try exact Hsame.
    assert (Forall2 (fun t t' => id t' = id t /\ user_id t' = user_id t
                                 /\ is_complete t' = is_complete t
                                 /\ created_at t' = created_at t
                                 /\ updated_at t' = updated_at t
                                 /\ (id t <> taskId -> t' = t))
              (tasks h)
              (map (fun task => if str_eqb (id task) taskId
                                then spread task updates else task) (tasks h)))
      as Hmap.
    { apply Forall2_map_self. intros t.
      destruct (str_eqb (id t) taskId) eqn:E; [|tauto].
      apply str_eqb_eq in E. simpl. tauto. }
    destruct (up_title updates) as [t|]; simpl; [|exact Hmap].
    destruct (negb (truthy (trim t)) || (js_length (trim t) =? 0));
      simpl; [exact Hsame|].
    destruct (js_length (trim t) >? 500); simpl; [exact Hsame | exact Hmap].
Qed.

Lemma map_replace_same (x : JSString) (g : Task -> Task) l :
  (forall t, In t l -> id t = x -> g t = t) ->
  map (fun task => if str_eqb (id task) x then g task else task) l = l.
Proof.
  induction l as [|t l IH]; simpl; intros H; [reflexivity|].
  f_equal.
  - destruct (str_eqb (id t) x) eqn:E; [|reflexivity].
    apply str_eqb_eq in E. auto.
  - apply IH. auto.
Qed.

(** If every task with the given id has [is_complete = currentStatus], the
    optimistic step followed by the revert gives the collection back. *)
Lemma toggle_revert_restores (userId : option JSString)
    (taskId : JSString) (currentStatus : bool) (h : Hook) (clk clk' : Clock)
    (r : Response) (e : PgError) :
  (forall t, In t (tasks h) -> id t = taskId -> is_complete t = currentStatus) ->
  res_error r = Some e ->
  let h1 := fst (run clk (toggleTask userId taskId currentStatus) h) in
  let res := snd (run clk (toggleTask userId taskId currentStatus) h) in
  tasks (fst (run clk' (resume res r) h1)) = tasks h.
Proof.
  intros Hc He. unfold toggleTask. simpl. rewrite He. simpl.
  rewrite map_map.
  rewrite <- (map_replace_same taskId
                (fun t => set_complete currentStatus (set_complete (negb currentStatus) t))
                (tasks h)) at 2.
  - apply map_ext. intros t.
    destruct (str_eqb (id t) taskId) eqn:E; simpl; rewrite E; reflexivity.
  - intros t Hin Hid. rewrite <- (Hc t Hin Hid). apply set_complete_back.
Qed.

Lemma unique_ids_same_id (l : list Task) (t t' : Task) :
  unique_ids l -> In t l -> In t' l -> id t = id t' -> t = t'.
Proof.
  unfold unique_ids. induction l as [|x l IH]; simpl; [tauto|].
  intros Hnd Ht Ht' Hid. inversion Hnd as [|y ys Hnot Hnd']; subst.
  destruct Ht as [<-|Ht], Ht' as [<-|Ht']; auto.
  - exfalso. apply Hnot. rewrite Hid. now apply in_map.
  - exfalso. apply Hnot. rewrite <- Hid. now apply in_map.
Qed.

(** X15: a toggle started from the checkbox of a [TaskItem] and refused
    by the store leaves the collection exactly as it was.  The checkbox
    passes the status its task has, so for a task of the collection of a
    reachable state the optimistic step followed by the revert restores
    every task. *)
Theorem checkbox_toggle_failure_restores (m : Machine) (T : Task)
    (taskId : JSString) (b : bool) (clk clk' : Clock) (r : Response) (e : PgError) :
  reachable m -> In T (tasks (hook m)) ->
  checkbox_onChange T = OnToggle taskId b ->
  res_error r = Some e ->
  let h1 := fst (run clk (toggleTask (userId m) taskId b) (hook m)) in
  let res := snd (run clk (toggleTask (userId m) taskId b) (hook m)) in
  tasks (fst (run clk' (resume res r) h1)) = tasks (hook m).
Proof.
  intros Hr HT Hc He. unfold checkbox_onChange in Hc. injection Hc as <- <-.
  apply (toggle_revert_restores (userId m) (id T) (is_complete T) (hook m)
           clk clk' r e); [|exact He].
  intros t Ht Hid. f_equal.
  apply (unique_ids_same_id (tasks (hook m))); auto.
  apply reachable_inv in Hr. apply Hr.
Qed.

Lemma checkbox_toggle_failure_restores_witness :
  reachable fetched_A
  /\ In (task_of "t1" "A" false) (tasks (hook fetched_A))
  /\ checkbox_onChange (task_of "t1" "A" false) = OnToggle (lit "t1") false
  /\ res_error failed_response = Some (mkPgError (lit "23505"))
  /\ tasks (fst (run clock0
                   (resume (snd (run clock0
                                   (toggleTask (userId fetched_A) (lit "t1") false)
                                   (hook fetched_A)))
                      failed_response)
                   (fst (run clock0 (toggleTask (userId fetched_A) (lit "t1") false)
                           (hook fetched_A)))))
     = tasks (hook fetched_A).
Proof.
  assert (In (task_of "t1" "A" false) (tasks (hook fetched_A))) as Hin
    by (vm_compute; auto).
  split; [exact fetched_A_reachable|]. split; [exact Hin|].
  split; [reflexivity|]. split; [reflexivity|].
  exact (checkbox_toggle_failure_restores fetched_A (task_of "t1" "A" false)
           (lit "t1") false clock0 clock0 failed_response (mkPgError (lit "23505"))
           fetched_A_reachable Hin eq_refl eq_refl).
Defined.

(** ** Deleting *)

(** X16: [deleteTask] without a user throws with nothing changed.  With a
    user it removes every task with the given id at once, keeps the other
    tasks, and asks the store.  When the store accepts, the completion
    changes nothing.  When the store refuses, the collection becomes the
    one the callback was created with, whatever the collection holds by
    then, the error cell holds 'Failed to delete task', and the call
    rejects with that message and the store's code. *)
Theorem deleteTask_outcomes (userId : option JSString) (original : list Task)
    (taskId : JSString) (h h' : Hook) (clk clk' : Clock) (r : Response) :
  let h1 := fst (run clk (deleteTask userId original taskId) h) in
  let res := snd (run clk (deleteTask userId original taskId) h) in
  ((forall uid, userId = Some uid -> truthy uid = false) ->
   h1 = h /\ res = Rejected (TaskError "User not authenticated" None))
  /\ (forall uid, userId = Some uid -> truthy uid = true ->
        ~ In taskId (map id (tasks h1))
        /\ (forall t, In t (tasks h) -> id t <> taskId -> In t (tasks h1))
        /\ (forall t, In t (tasks h1) -> In t (tasks h))
        /\ awaited res = Some (DeleteTask taskId uid)
        /\ (res_error r = None -> run clk' (resume res r) h' = (h', Resolved tt))
        /\ (forall e, res_error r = Some e ->
              run clk' (resume res r) h'
              = (with_error (Some "Failed to delete task"%string)
                   (with_tasks (fun _ => original) h'),
                 Rejected (TaskError "Failed to delete task" (Some (pg_code e)))))).
Proof.
  unfold deleteTask, with_user. split.
  - intros Hu. destruct userId as [uid|]; [|split; reflexivity].
    rewrite (Hu uid eq_refl). split; reflexivity.
  - intros uid -> Hu. rewrite Hu. simpl.
    split; [apply filter_removes|]. split; [|split; [|split; [|split]]].
    + intros t Hin Hid. apply filter_In. split; [exact Hin|].
      apply negb_true_iff, str_eqb_neq. exact Hid.
    + intros t Hin. apply filter_In in Hin. tauto.
    + reflexivity.
    + intros He. rewrite He. reflexivity.
    + intros e He. rewrite He. reflexivity.
Qed.

Lemma deleteTask_outcomes_witness :
  truthy (lit "A") = true
  /\ res_error failed_response = Some (mkPgError (lit "23505"))
  /\ tasks (hook delete_refused_A)
     = [task_of "t1" "A" false; task_of "t2" "A" true]
  /\ fst (run clock0
            (resume (snd (run clock0
                            (deleteTask (Some (lit "A")) (tasks (hook fetched_A)) (lit "t1"))
                            (hook fetched_A)))
               failed_response)
            one_task_hook)
     = with_error (Some "Failed to delete task"%string)
         (with_tasks (fun _ => tasks (hook fetched_A)) one_task_hook).
Proof.
  split; [reflexivity|]. split; [reflexivity|]. split; [reflexivity|].
  exact (f_equal fst
           (proj2 (proj2 (proj2 (proj2 (proj2
              (proj2 (deleteTask_outcomes (Some (lit "A")) (tasks (hook fetched_A))
                        (lit "t1") (hook fetched_A) one_task_hook clock0 clock0
                        failed_response)
                 (lit "A") eq_refl eq_refl)))))
              (mkPgError (lit "23505")) eq_refl)).
Defined.

(** ** Push events and local steps together *)

Lemma filter_twice_same (x : JSString) l :
  filter (fun task => negb (str_eqb (id task) x))
    (filter (fun task => negb (str_eqb (id task) x)) l)
  = filter (fun task => negb (str_eqb (id task) x)) l.
Proof. apply filter_absent, filter_removes. Qed.

Lemma deleteTask_first_step uid original x h clk :
  truthy uid = true ->
  fst (run clk (deleteTask (Some uid) original x) h)
  = with_tasks (filter (fun task => negb (str_eqb (id task) x))) (with_error None h).
Proof.
  intros Hu. unfold deleteTask, with_user. rewrite Hu. reflexivity.
Qed.

(** X17: a local delete and the delete event of the same task do not
    disturb each other.  After the optimistic step of [deleteTask] the
    pushed delete of that task changes no cell, and a delete started after
    the event has arrived leaves the same collection as a delete alone. *)
Theorem delete_event_and_local_delete (uid : JSString) (original : list Task)
    (old : Task) (h : Hook) (clk clk' : Clock) :
  truthy uid = true ->
  let h1 := fst (run clk (deleteTask (Some uid) original (id old)) h) in
  run clk' (onPostgresChanges (DELETE old)) h1 = (h1, Resolved tt)
  /\ tasks (fst (run clk (deleteTask (Some uid) original (id old))
                   (fst (run clk' (onPostgresChanges (DELETE old)) h))))
     = tasks h1.
Proof.
  intros Hu h1. subst h1.
  rewrite !run_onPostgresChanges, !(deleteTask_first_step uid original (id old)) by exact Hu.
  cbn [fst]. split.
  - f_equal.
    destruct (isMountedRef (with_tasks (filter (fun task => negb (str_eqb (id task) (id old))))
                              (with_error None h))); [|reflexivity].
    unfold with_tasks, with_error, mergeEvent.
    cbn [tasks loading error stats isMountedRef channelRef].
    now rewrite filter_twice_same.
  - destruct (isMountedRef h); [|reflexivity].
    unfold with_tasks, with_error, mergeEvent.
    cbn [tasks loading error stats isMountedRef channelRef].
    apply filter_twice_same.
Qed.

Lemma delete_event_and_local_delete_witness :
  truthy (lit "A") = true
  /\ run clock0 (onPostgresChanges (DELETE (task_of "t1" "A" false)))
       (fst (run clock0 (deleteTask (Some (lit "A")) [] (lit "t1")) one_task_hook))
     = (fst (run clock0 (deleteTask (Some (lit "A")) [] (lit "t1")) one_task_hook),
        Resolved tt).
Proof.
  split; [reflexivity|].
  exact (proj1 (delete_event_and_local_delete (lit "A") [] (task_of "t1" "A" false)
                  one_task_hook clock0 clock0 eq_refl)).
Defined.

Lemma update_event_overrides (row : Task) (g : Task -> Task) l :
  (forall t, id (g t) = id t) ->
  mergeEvent (UPDATE row)
    (map (fun task => if str_eqb (id task) (id row) then g task else task) l)
  = mergeEvent (UPDATE row) l.
Proof.
  intros Hg. simpl. rewrite map_map. apply map_ext. intros t.
  destruct (str_eqb (id t) (id row)) eqn:E; [|now rewrite E].
  now rewrite Hg, E.
Qed.

(** X18: a pushed update wins over an optimistic value.  On a mounted
    hook, the update event of a row applied after the optimistic step of a
    toggle or of an update of the same task gives the collection that the
    event alone gives: the pushed row stands at every position of that
    id. *)
Theorem pushed_update_wins (uid : JSString) (row : Task) (b : bool)
    (updates : Updates) (h : Hook) (clk clk' : Clock) :
  isMountedRef h = true ->
  tasks (fst (run clk' (onPostgresChanges (UPDATE row))
                (fst (run clk (toggleTask (Some uid) (id row) b) h))))
  = mergeEvent (UPDATE row) (tasks h)
  /\ tasks (fst (run clk' (onPostgresChanges (UPDATE row))
                   (fst (run clk (updateTask (Some uid) (id row) updates) h))))
     = mergeEvent (UPDATE row) (tasks h).
Proof.
  intros Hm. rewrite !run_onPostgresChanges.
  assert (forall p : Prog unit, isMountedRef (fst (run clk p h)) = true) as Hrun.
  { intros p. destruct (run_refs clk p h) as [-> _]. exact Hm. }
  rewrite !Hrun. cbn [fst]. unfold with_tasks. cbn [tasks]. split.
  - unfold toggleTask. cbn -[mergeEvent].
    apply (update_event_overrides row (set_complete (negb b))). reflexivity.
  - unfold updateTask, with_user.
    destruct (truthy uid); [|reflexivity].
    destruct (up_title updates) as [t|]; cbv zeta;
      [destruct (negb (truthy (trim t)) || (js_length (trim t) =? 0));
         [reflexivity|];
       destruct (js_length (trim t) >? 500); [reflexivity|]|];
      cbn -[mergeEvent];
      apply (update_event_overrides row (fun task => spread task updates));
      reflexivity.
Qed.

Lemma pushed_update_wins_witness :
  isMountedRef one_task_hook = true
  /\ tasks (fst (run clock0 (onPostgresChanges (UPDATE (task_of "t1" "A" true)))
                   (fst (run clock0 (toggleTask (Some (lit "A")) (lit "t1") true)
                           one_task_hook))))
     = mergeEvent (UPDATE (task_of "t1" "A" true)) (tasks one_task_hook).
Proof.
  split; [reflexivity|].
  exact (proj1 (pushed_update_wins (lit "A") (task_of "t1" "A" true) true
                  priority_patch one_task_hook clock0 clock0 eq_refl)).
Defined.

(** * The components *)

(** ** [TaskItem] *)

(** X19: [handleSave] of a task item never sends a blank title.  When the
    edited title is blank after trimming it alerts and stays in edit mode
    with nothing sent; otherwise it leaves edit mode and sends, for the id
    of its task, a patch whose title is the trimmed title (not empty, and
    unchanged by trimming again), whose description is never the empty
    string, and which has no other key. *)
Theorem handleSave_sends_trimmed_title (task : Task) (st : ItemState) :
  (trim (editTitle st) = [] ->
   handleSave task st = (st, Alert "Title cannot be empty"))
  /\ (trim (editTitle st) <> [] ->
      exists updates,
        handleSave task st
        = (mkItemState false (editTitle st) (editDescription st),
           OnUpdate (id task) updates)
        /\ up_title updates = Some (trim (editTitle st))
        /\ trim (trim (editTitle st)) = trim (editTitle st)
        /\ up_description updates <> None
        /\ up_description updates <> Some (Some [])
        /\ (forall d, up_description updates = Some (Some d) -> trim d = d)
        /\ up_priority updates = None /\ up_due_date updates = None).
Proof.
  unfold handleSave. split.
  - intros H. now rewrite H.
  - intros H. destruct (trim (editTitle st)) as [|c t] eqn:E; [contradiction|].
    cbn [truthy negb]. eexists. split; [reflexivity|]. cbn [up_title up_description
      up_priority up_due_date].
    split; [reflexivity|]. split; [rewrite <- E; apply trim_twice|].
    split; [discriminate|]. split; [|split; [|split; reflexivity]].
    + intros Hd. injection Hd as Hd.
      apply (trim_or_null_trimmed (Some (editDescription st))) in Hd. tauto.
    + intros d Hd. injection Hd as Hd.
      apply (trim_or_null_trimmed (Some (editDescription st))) in Hd. tauto.
Qed.

Lemma handleSave_sends_trimmed_title_witness :
  trim (editTitle edited_item) <> []
  /\ exists updates,
       handleSave (task_of "t1" "A" false) edited_item
       = (mkItemState false (editTitle edited_item) (editDescription edited_item),
          OnUpdate (lit "t1") updates)
       /\ up_title updates = Some (lit "call Ann").
Proof.
  assert (trim (editTitle edited_item) <> []) as H by (vm_compute; discriminate).
  split; [exact H|].
  destruct (proj2 (handleSave_sends_trimmed_title (task_of "t1" "A" false) edited_item) H)
    as [updates [H1 [H2 _]]].
  exists updates. split; [exact H1 | exact H2].
Defined.

(** X20: what [handleSave] sends and [updateTask] together.  For a user
    who is present and an edited title of at most 500 after trimming,
    [updateTask] accepts the patch, sends it for the id of the task, and
    every task with that id then shows the trimmed title.  For a longer
    title [updateTask] throws 'Task title must be 500 characters or less'
    with the collection untouched, while the item has already left edit
    mode. *)
Theorem saved_title_reaches_hook_trimmed (task : Task) (st st' : ItemState)
    (taskId uid : JSString) (updates : Updates) (h : Hook) (clk : Clock) :
  handleSave task st = (st', OnUpdate taskId updates) -> truthy uid = true ->
  let h1 := fst (run clk (updateTask (Some uid) taskId updates) h) in
  let res := snd (run clk (updateTask (Some uid) taskId updates) h) in
  (js_length (trim (editTitle st)) <= 500 ->
   awaited res = Some (UpdateFields updates (id task) uid)
   /\ (forall i t, nth_error (tasks h) i = Some t -> id t = id task ->
         exists t', nth_error (tasks h1) i = Some t'
                    /\ title t' = trim (editTitle st)))
  /\ (500 < js_length (trim (editTitle st)) ->
      isEditing st' = false /\ h1 = h
      /\ res = Rejected (TaskError "Task title must be 500 characters or less" None)).
Proof.
  unfold handleSave.
  destruct (negb (truthy (trim (editTitle st)))) eqn:E; [discriminate|].
  intros H Hu. injection H as <- <- <-.
  apply negb_false_iff in E.
  assert (trim (trim (editTitle st)) <> []) as Hne.
  { rewrite trim_twice. intros H. now rewrite H in E. }
  unfold updateTask, with_user. rewrite Hu. cbn [up_title]. cbv zeta.
  rewrite (title_required_pass _ Hne), trim_twice. split.
  - intros Hlen. rewrite (gtb_false _ _ Hlen). simpl.
    split; [reflexivity|].
    intros i t Hi Hid. rewrite nth_error_map, Hi. simpl.
    eexists. split; [reflexivity|].
    rewrite Hid, str_eqb_refl. reflexivity.
  - intros Hlen. rewrite (gtb_true _ _ Hlen). simpl.
    split; [reflexivity|]. split; reflexivity.
Qed.

Lemma saved_title_reaches_hook_trimmed_witness :
  truthy (lit "A") = true
  /\ js_length (trim (editTitle edited_item)) <= 500
  /\ awaited (snd (run clock0
                     (updateTask (Some (lit "A")) (lit "t1")
                        (mkUpdates (Some (lit "call Ann")) (Some None) None None))
                     one_task_hook))
     = Some (UpdateFields (mkUpdates (Some (lit "call Ann")) (Some None) None None)
               (lit "t1") (lit "A")).
Proof.
  assert (js_length (trim (editTitle edited_item)) <= 500) as Hlen
    by (vm_compute; discriminate).
  split; [reflexivity|]. split; [exact Hlen|].
  exact (proj1 (proj1
           (saved_title_reaches_hook_trimmed (task_of "t1" "A" false) edited_item
              (mkItemState false (editTitle edited_item) (editDescription edited_item))
              (lit "t1") (lit "A") (mkUpdates (Some (lit "call Ann")) (Some None) None None)
              one_task_hook clock0 eq_refl eq_refl) Hlen)).
Defined.

(** ** [TaskForm] *)

Lemma form_input_accepted (clk clk' : Clock) (setHours0 : Z -> Z)
    (f : FormState) (uid : JSString) (h : Hook) :
  no_errors (validateForm clk setHours0 f) = true -> truthy uid = true ->
  awaited (snd (run clk' (createTask (Some uid) (submitted_input f)) h))
  = Some (InsertTask
            (mkNewTask uid (trim (form_title f))
               (trim_or_null (Some (form_description f)))
               (form_priority f) (or_null (Some (form_dueDate f))))).
Proof.
  unfold no_errors, validateForm. cbn [title_error description_error dueDate_error].
  destruct (negb (truthy (trim (form_title f)))) eqn:E1; [discriminate|].
  destruct (js_length (trim (form_title f)) >? 500) eqn:E2; [discriminate|].
  destruct (js_length (form_description f) >? 2000) eqn:E3; [discriminate|].
  intros _ Hu.
  apply negb_false_iff in E1.
  assert (trim (form_title f) <> []) as Hne.
  { intros H. now rewrite H in E1. }
  rewrite Z.gtb_ltb in E3. apply Z.ltb_ge in E3.
  unfold createTask, with_user, submitted_input. rewrite Hu.
  cbn [in_title in_description in_priority in_due_date].
  rewrite trim_twice, (title_required_pass _ Hne), E2.
  assert (match trim_or_null (Some (form_description f)) with
          | Some d => truthy d && (js_length d >? 2000)
          | None => false
          end = false) as ->.
  { destruct (trim_or_null (Some (form_description f))) as [d|] eqn:Ed; [|reflexivity].
    pose proof (trim_or_null_length _ _ Ed).
    rewrite (gtb_false (js_length d) 2000) by lia. apply andb_false_r. }
  assert (trim_or_null (trim_or_null (Some (form_description f)))
          = trim_or_null (Some (form_description f))) as Hd.
  { unfold trim_or_null.
    destruct (truthy (trim (form_description f))) eqn:Et; [|reflexivity].
    now rewrite trim_twice, Et. }
  assert (or_null (or_null (Some (form_dueDate f))) = or_null (Some (form_dueDate f)))
    as Hdue.
  { unfold or_null. destruct (truthy (form_dueDate f)) eqn:Et; [|reflexivity].
    now rewrite Et. }
  rewrite Hd, Hdue. reflexivity.
Qed.

(** X21: the form's validation implies the hook's.  When [validateForm]
    sets no error and a user is present, [createTask] accepts the input
    that [handleSubmit] builds: it throws nothing and sends the insert
    with the trimmed title, the trimmed description or null when it is
    blank, the chosen priority, and the due date or null when it is
    empty. *)
Theorem form_input_passes_createTask (clk clk' : Clock) (setHours0 : Z -> Z)
    (f : FormState) (uid : JSString) (h : Hook) :
  no_errors (validateForm clk setHours0 f) = true -> truthy uid = true ->
  awaited (snd (run clk' (createTask (Some uid) (submitted_input f)) h))
  = Some (InsertTask
            (mkNewTask uid (trim (form_title f))
               (trim_or_null (Some (form_description f)))
               (form_priority f) (or_null (Some (form_dueDate f))))).
Proof. apply form_input_accepted. Qed.

Lemma form_input_passes_createTask_witness :
  no_errors (validateForm clock0 (fun t => t) filled_form) = true
  /\ truthy (lit "A") = true
  /\ awaited (snd (run clock0 (createTask (Some (lit "A")) (submitted_input filled_form))
                     initial_hook))
     = Some (InsertTask (mkNewTask (lit "A") (lit "call Ann") (Some (lit "tomorrow"))
                           high None)).
Proof.
  split; [reflexivity|]. split; [reflexivity|].
  exact (form_input_passes_createTask clock0 clock0 (fun t => t) filled_form (lit "A")
           initial_hook eq_refl eq_refl).
Defined.

Lemma createTask_stages (uid : JSString) (input : CreateTaskInput) (h : Hook)
    (clk : Clock) (row : NewTask) :
  awaited (snd (run clk (createTask (Some uid) input) h)) = Some (InsertTask row) ->
  forall r h1 clk1,
    (res_error r <> None ->
     exists code,
       snd (run clk1 (resume (snd (run clk (createTask (Some uid) input) h)) r) h1)
       = Rejected (TaskError "Failed to create task" code))
    /\ (res_error r = None ->
        exists k,
          snd (run clk1 (resume (snd (run clk (createTask (Some uid) input) h)) r) h1)
          = Pending (SelectTasks uid) k
          /\ forall r2 h2 clk2, snd (run clk2 (k r2) h2) = Resolved tt).
Proof.
  unfold createTask, fetchTasks, with_user.
  destruct (truthy uid) eqn:Eu; [|discriminate].
  destruct (negb (truthy (trim (in_title input)))
            || (js_length (trim (in_title input)) =? 0)); [discriminate|].
  destruct (js_length (trim (in_title input)) >? 500); [discriminate|].
  destruct (match in_description input with
            | Some d => truthy d && (js_length d >? 2000)
            | None => false
            end); [discriminate|].
  simpl. intros _ r h1 clk1. split.
  - intros He. destruct (res_error r) as [e|]; [|contradiction].
    simpl. eexists. reflexivity.
  - intros He. rewrite He. simpl. eexists. split; [reflexivity|].
    intros r2 h2 clk2. cbv beta.
    destruct (res_error r2); simpl; destruct (isMountedRef h2) eqn:Em; simpl;
      rewrite ?Em; reflexivity.
Qed.

(** X22: a valid form and [createTask] together.  [handleSubmit] marks the
    form as submitting and hands over the input.  Without a user the hook
    rejects at once and the form keeps its fields, shows 'User not
    authenticated' and stops submitting; when the store refuses the insert
    it shows 'Failed to create task' in the same way; when the store
    accepts and the fetch that follows is over, whatever it returned, the
    fields are reset and the form stops submitting. *)
Theorem form_follows_createTask (clk : Clock) (setHours0 : Z -> Z) (c : FormCells)
    (userId : option JSString) (h h1 h2 : Hook) (clk0 clk1 clk2 : Clock)
    (r r2 : Response) :
  no_errors (validateForm clk setHours0 (fields c)) = true ->
  let c1 := fst (handleSubmit_begin clk setHours0 c) in
  let res0 := snd (run clk0 (createTask userId (submitted_input (fields c))) h) in
  let res1 := snd (run clk1 (resume res0 r) h1) in
  let res2 := snd (run clk2 (resume res1 r2) h2) in
  handleSubmit_begin clk setHours0 c
  = (mkFormCells (fields c) true no_form_errors None,
     Some (submitted_input (fields c)))
  /\ ((forall uid, userId = Some uid -> truthy uid = false) ->
      handleSubmit_settle res0 c1
      = mkFormCells (fields c) false no_form_errors
          (Some "User not authenticated"%string))
  /\ (forall uid, userId = Some uid -> truthy uid = true ->
        handleSubmit_settle res0 c1 = c1
        /\ (res_error r <> None ->
            handleSubmit_settle res1 c1
            = mkFormCells (fields c) false no_form_errors
                (Some "Failed to create task"%string))
        /\ (res_error r = None ->
            handleSubmit_settle res1 c1 = c1
            /\ handleSubmit_settle res2 c1
               = mkFormCells empty_fields false no_form_errors None)).
Proof.
  intros Hv.
  assert (handleSubmit_begin clk setHours0 c
          = (mkFormCells (fields c) true no_form_errors None,
             Some (submitted_input (fields c)))) as Hb.
  { unfold handleSubmit_begin. cbv zeta. now rewrite Hv. }
  rewrite Hb. cbn [fst]. split; [reflexivity|]. split.
  - intros Hu. unfold createTask, with_user.
    destruct userId as [uid|]; [rewrite (Hu uid eq_refl)|]; reflexivity.
  - intros uid -> Hu.
    pose proof (form_input_accepted clk clk0 setHours0 (fields c) uid h Hv Hu)
      as Ha.
    destruct (createTask_stages uid (submitted_input (fields c)) h clk0 _ Ha r h1 clk1)
      as [Hfail Hok].
    destruct (snd (run clk0 (createTask (Some uid) (submitted_input (fields c))) h))
      as [a|e|q k]; try discriminate Ha.
    split; [reflexivity|]. split.
    + intros He. destruct (Hfail He) as [code ->]. reflexivity.
    + intros He. destruct (Hok He) as [k' [-> Hk]]. split; [reflexivity|].
      cbn [resume]. rewrite Hk. reflexivity.
Qed.

Lemma form_follows_createTask_witness :
  no_errors (validateForm clock0 (fun t => t)
               (fields (mkFormCells filled_form false no_form_errors None))) = true
  /\ handleSubmit_begin clock0 (fun t => t)
       (mkFormCells filled_form false no_form_errors None)
     = (mkFormCells filled_form true no_form_errors None,
        Some (submitted_input filled_form)).
Proof.
  split; [reflexivity|].
  exact (proj1 (form_follows_createTask clock0 (fun t => t)
                  (mkFormCells filled_form false no_form_errors None)
                  (Some (lit "A")) initial_hook initial_hook initial_hook
                  clock0 clock0 clock0 failed_response failed_response eq_refl)).
Defined.

(** * [useAuth] *)

(** X23: how [initAuth] succeeds.  It clears the error and asks for the
    existing session.  On a mounted effect, an existing session is taken
    as it is: it is stored, [loading] is switched off, and no anonymous
    sign-in is made and no timer set.  Only when there is none does it
    sign in anonymously, and when that succeeds it stores the new
    session, resets [retryCount] to 0 and switches [loading] off. *)
Theorem initAuth_success (rc : Z) (i i1 i2 : AuthInstance) (r r2 : AuthResponse) :
  let res0 := snd (auth_run (initAuth rc) i) in
  let res1 := snd (auth_run (auth_resume res0 r) i1) in
  auth_awaited res0 = Some GetSession
  /\ (mounted i1 = true -> auth_failure r = None ->
      forall s, auth_session r = Some s ->
        auth_run (auth_resume res0 r) i1
        = (with_cells (fun c => mkAuthCells (Some s) false (auth_error c) (retryCount c)) i1,
           AuthResolved))
  /\ (mounted i1 = true -> auth_failure r = None -> auth_session r = None ->
      fst (auth_run (auth_resume res0 r) i1) = i1
      /\ auth_awaited res1 = Some SignInAnonymously
      /\ (mounted i2 = true -> auth_failure r2 = None ->
          auth_run (auth_resume res1 r2) i2
          = (with_cells (fun c => mkAuthCells (auth_session r2) false (auth_error c) 0) i2,
             AuthResolved))).
Proof.
  unfold initAuth. simpl. split; [reflexivity|]. split.
  - intros Hm He s Hs. rewrite He. simpl. rewrite Hm, Hs. reflexivity.
  - intros Hm He Hs. rewrite He. simpl. rewrite Hm, Hs. simpl.
    split; [reflexivity|]. split; [reflexivity|].
    intros Hm2 He2. rewrite He2. simpl. rewrite Hm2. reflexivity.
Qed.

Lemma initAuth_success_witness :
  mounted initial_auth = true
  /\ auth_failure (mkAuthResponse (Some session_of_A) None) = None
  /\ auth_run (auth_resume (snd (auth_run (initAuth 0) initial_auth))
                 (mkAuthResponse (Some session_of_A) None))
       initial_auth
     = (with_cells (fun c => mkAuthCells (Some session_of_A) false (auth_error c)
                               (retryCount c)) initial_auth,
        AuthResolved).
Proof.
  split; [reflexivity|]. split; [reflexivity|].
  exact (proj1 (proj2 (initAuth_success 0 initial_auth initial_auth initial_auth
                         (mkAuthResponse (Some session_of_A) None)
                         (mkAuthResponse None None)))
           eq_refl eq_refl session_of_A eq_refl).
Defined.

(** X24: once the effect of [useAuth] is cleaned up, its pending work
    changes nothing.  With [mounted] false, the completion of
    [getSession], the completion of the anonymous sign-in and an auth
    state change leave every cell as it is and set no timer, whatever the
    answer; a [getSession] that completes then makes no sign-in
    request. *)
Theorem cleaned_up_auth_is_inert (rc : Z) (i i1 i2 i3 : AuthInstance)
    (r r2 : AuthResponse) (s : option Session) :
  mounted i3 = false ->
  let res0 := snd (auth_run (initAuth rc) i) in
  let res1 := snd (auth_run (auth_resume res0 r) i1) in
  auth_run (auth_resume res0 r) i3 = (i3, AuthResolved)
  /\ auth_run (auth_resume res1 r2) i3 = (i3, AuthResolved)
  /\ auth_run (onAuthStateChange s) i3 = (i3, AuthResolved).
Proof.
  intros Hm. unfold initAuth, onAuthStateChange. simpl. split; [|split].
  - destruct (auth_failure r); simpl; rewrite Hm; reflexivity.
  - destruct (auth_failure r); simpl.
    + destruct (mounted i1); simpl; [|reflexivity].
      destruct (rc <? 3); reflexivity.
    + destruct (mounted i1); simpl; [|reflexivity].
      destruct (auth_session r); simpl; [reflexivity|].
      destruct (auth_failure r2); simpl; rewrite Hm; reflexivity.
  - rewrite Hm. reflexivity.
Qed.

Lemma cleaned_up_auth_is_inert_witness :
  mounted cleaned_up_auth = false
  /\ auth_run (auth_resume (snd (auth_run (initAuth 0) initial_auth))
                 (mkAuthResponse (Some session_of_A) None))
       cleaned_up_auth
     = (cleaned_up_auth, AuthResolved).
Proof.
  split; [reflexivity|].
  exact (proj1 (cleaned_up_auth_is_inert 0 initial_auth initial_auth initial_auth
                  cleaned_up_auth (mkAuthResponse (Some session_of_A) None)
                  (mkAuthResponse None None) None eq_refl)).
Defined.

(** X25: how [initAuth] fails.  On a mounted effect, when [getSession] or
    the anonymous sign-in answers with an error, the error cell gets its
    message, [loading] is switched off, the session and [retryCount] stay,
    and the call resolves.  A retry timer is set exactly when the
    [retryCount] of the effect is below 3, with a delay of 2000
    milliseconds times [retryCount + 1]; from 3 on nothing is scheduled. *)
Theorem initAuth_failure_schedules_retry (rc : Z) (i i1 i2 : AuthInstance)
    (r r2 : AuthResponse) (m : string) :
  let res0 := snd (auth_run (initAuth rc) i) in
  let res1 := snd (auth_run (auth_resume res0 r) i1) in
  let failed (j : AuthInstance) :=
    (mkAuthInstance
       (mkAuthCells (session (cells j)) false (Some m) (retryCount (cells j)))
       true
       (timers j ++ (if rc <? 3 then [2000 * (rc + 1)] else [])),
     AuthResolved) in
  (mounted i1 = true -> auth_failure r = Some m ->
   auth_run (auth_resume res0 r) i1 = failed i1)
  /\ (mounted i1 = true -> auth_failure r = None -> auth_session r = None ->
      mounted i2 = true -> auth_failure r2 = Some m ->
      auth_run (auth_resume res1 r2) i2 = failed i2).
Proof.
  unfold initAuth. simpl. split.
  - intros Hm He. rewrite He. simpl. rewrite Hm. simpl.
    destruct (rc <? 3); simpl; unfold with_cells; simpl;
      rewrite ?Hm, ?app_nil_r; reflexivity.
  - intros Hm He Hs Hm2 He2. rewrite He. simpl. rewrite Hm, Hs. simpl.
    rewrite He2. simpl. rewrite Hm2. simpl.
    destruct (rc <? 3); simpl; unfold with_cells; simpl;
      rewrite ?Hm2, ?app_nil_r; reflexivity.
Qed.

Lemma initAuth_failure_schedules_retry_witness :
  mounted initial_auth = true
  /\ auth_failure (mkAuthResponse None (Some "network down"%string))
     = Some "network down"%string
  /\ timers (fst (auth_run (auth_resume (snd (auth_run (initAuth 2) initial_auth))
                              (mkAuthResponse None (Some "network down"%string)))
                    initial_auth))
     = [6000].
Proof.
  split; [reflexivity|]. split; [reflexivity|].
  exact (f_equal (fun x => timers (fst x))
           (proj1 (initAuth_failure_schedules_retry 2 initial_auth initial_auth
                     initial_auth (mkAuthResponse None (Some "network down"%string))
                     (mkAuthResponse None None) "network down")
              eq_refl eq_refl)).
Defined.

(** * The error cell *)

(** X26: [toggleTask] is the one mutation of the realtime hook that does
    not clear the error cell.  [createTask], [updateTask] and [deleteTask]
    clear it before they ask the store; after the optimistic step of
    [toggleTask] the cell holds what it held, and a toggle that the store
    accepts leaves the message of an earlier failure on screen. *)
Theorem toggleTask_keeps_earlier_error (userId : option JSString)
    (taskId : JSString) (b : bool) (h h' : Hook) (clk clk' : Clock) (r : Response)
    (input : CreateTaskInput) (updates : Updates) (original : list Task) :
  (error (fst (run clk (toggleTask userId taskId b) h)) = error h
   /\ (res_error r = None ->
       run clk' (resume (snd (run clk (toggleTask userId taskId b) h)) r) h'
       = (h', Resolved tt)))
  /\ (awaited (snd (run clk (createTask userId input) h)) <> None ->
      error (fst (run clk (createTask userId input) h)) = None)
  /\ (awaited (snd (run clk (updateTask userId taskId updates) h)) <> None ->
      error (fst (run clk (updateTask userId taskId updates) h)) = None)
  /\ (awaited (snd (run clk (deleteTask userId original taskId) h)) <> None ->
      error (fst (run clk (deleteTask userId original taskId) h)) = None).
Proof.
  split; [|split; [|split]].
  - unfold toggleTask. simpl. split; [reflexivity|].
    intros He. rewrite He. reflexivity.
  - unfold createTask, with_user.
    destruct userId as [uid|]; [destruct (truthy uid)|]; simpl; try congruence.
    destruct (negb (truthy (trim (in_title input)))
              || (js_length (trim (in_title input)) =? 0)); simpl; [congruence|].
    destruct (js_length (trim (in_title input)) >? 500); simpl; [congruence|].
    destruct (match in_description input with
              | Some d => truthy d && (js_length d >? 2000)
              | None => false
              end); simpl; [congruence | reflexivity].
  - unfold updateTask, with_user.
    destruct userId as [uid|]; [destruct (truthy uid)|]; simpl; try congruence.
    destruct (up_title updates) as [t|]; simpl; [|reflexivity].
    destruct (negb (truthy (trim t)) || (js_length (trim t) =? 0)); simpl;
      [congruence|].
    destruct (js_length (trim t) >? 500); simpl; [congruence | reflexivity].
  - unfold deleteTask, with_user.
    destruct userId as [uid|]; [destruct (truthy uid)|]; simpl;
      try congruence; reflexivity.
Qed.

Lemma toggleTask_keeps_earlier_error_witness :
  res_error (mkResponse None None) = None
  /\ error (fst (run clock0 (toggleTask (Some (lit "A")) (lit "t1") false)
                   stale_error_hook))
     = Some "Failed to delete task"%string
  /\ run clock0
       (resume (snd (run clock0 (toggleTask (Some (lit "A")) (lit "t1") false)
                       stale_error_hook))
          (mkResponse None None))
       stale_error_hook
     = (stale_error_hook, Resolved tt).
Proof.
  split; [reflexivity|].
  split.
  - exact (proj1 (proj1 (toggleTask_keeps_earlier_error (Some (lit "A")) (lit "t1") false
                           stale_error_hook stale_error_hook clock0 clock0
                           (mkResponse None None) untidy_input priority_patch []))).
  - exact (proj2 (proj1 (toggleTask_keeps_earlier_error (Some (lit "A")) (lit "t1") false
                           stale_error_hook stale_error_hook clock0 clock0
                           (mkResponse None None) untidy_input priority_patch []))
             eq_refl).
Defined.

(** * The form with the earlier hook *)

Lemma earlier_createTask_stages (uid : JSString) (input : CreateTaskInput)
    (h : Hook) (clk : Clock) :
  truthy uid = true -> trim (in_title input) <> [] ->
  awaited (snd (run clk (useTask.createTask (Some uid) input) h))
  = Some (InsertTask
            (mkNewTask uid (trim (in_title input)) (trim_or_null (in_description input))
               (match in_priority input with Some p => p | None => normal end)
               (or_null (in_due_date input))))
  /\ forall r h1 clk1,
       (res_error r <> None ->
        exists code,
          snd (run clk1 (resume (snd (run clk (useTask.createTask (Some uid) input) h)) r) h1)
          = Rejected (TaskError "Failed to create task" code))
       /\ (res_error r = None ->
           exists k,
             snd (run clk1 (resume (snd (run clk (useTask.createTask (Some uid) input) h)) r) h1)
             = Pending (SelectTasks uid) k
             /\ forall r2 h2 clk2, snd (run clk2 (k r2) h2) = Resolved tt).
Proof.
  intros Hu Hne. unfold useTask.createTask, useTask.fetchTasks, with_user.
  rewrite Hu.
  destruct (trim (in_title input)) as [|c t] eqn:Et; [contradiction|].
  cbn [truthy negb]. simpl. split; [reflexivity|].
  intros r h1 clk1. split.
  - intros He. destruct (res_error r) as [e|]; [|contradiction].
    simpl. eexists. reflexivity.
  - intros He. rewrite He. simpl. eexists. split; [reflexivity|].
    intros r2 h2 clk2. cbv beta.
    destruct (res_error r2); reflexivity.
Qed.

(** X27: the form with the [createTask] of [hooks/useTask.ts], the one
    [App.tsx] hands to it.  For a form that [validateForm] accepts and a
    user who is present, the hook throws nothing and sends the insert with
    the trimmed title, the trimmed description or null, the chosen
    priority and the due date or null; when the store refuses, the form
    keeps its fields and shows 'Failed to create task'; when the store
    accepts and the fetch that follows is over, the fields are reset.
    Without a user the form shows 'User not authenticated'.  In each case
    the form stops submitting. *)
Theorem form_follows_earlier_createTask (clk : Clock) (setHours0 : Z -> Z)
    (c : FormCells) (userId : option JSString) (h h1 h2 : Hook)
    (clk0 clk1 clk2 : Clock) (r r2 : Response) :
  no_errors (validateForm clk setHours0 (fields c)) = true ->
  let c1 := mkFormCells (fields c) true no_form_errors None in
  let res0 := snd (run clk0 (useTask.createTask userId (submitted_input (fields c))) h) in
  let res1 := snd (run clk1 (resume res0 r) h1) in
  let res2 := snd (run clk2 (resume res1 r2) h2) in
  ((forall uid, userId = Some uid -> truthy uid = false) ->
   handleSubmit_settle res0 c1
   = mkFormCells (fields c) false no_form_errors
       (Some "User not authenticated"%string))
  /\ (forall uid, userId = Some uid -> truthy uid = true ->
        awaited res0
        = Some (InsertTask
                  (mkNewTask uid (trim (form_title (fields c)))
                     (trim_or_null (Some (form_description (fields c))))
                     (form_priority (fields c))
                     (or_null (Some (form_dueDate (fields c))))))
        /\ (res_error r <> None ->
            handleSubmit_settle res1 c1
            = mkFormCells (fields c) false no_form_errors
                (Some "Failed to create task"%string))
        /\ (res_error r = None ->
            handleSubmit_settle res1 c1 = c1
            /\ handleSubmit_settle res2 c1
               = mkFormCells empty_fields false no_form_errors None)).
Proof.
  intros Hv. cbv zeta. split.
  - intros Hu. unfold useTask.createTask, with_user.
    destruct userId as [uid|]; [rewrite (Hu uid eq_refl)|]; reflexivity.
  - intros uid -> Hu.
    assert (trim (in_title (submitted_input (fields c))) <> []) as Hne.
    { cbn [submitted_input in_title]. rewrite trim_twice.
      revert Hv. unfold no_errors, validateForm. cbn [title_error].
      destruct (trim (form_title (fields c))); [discriminate | discriminate]. }
    destruct (earlier_createTask_stages uid (submitted_input (fields c)) h clk0 Hu Hne)
      as [Ha Hst].
    destruct (Hst r h1 clk1) as [Hfail Hok].
    split.
    + rewrite Ha. cbn [submitted_input in_title in_description in_priority in_due_date].
      rewrite trim_twice.
      assert (trim_or_null (trim_or_null (Some (form_description (fields c))))
              = trim_or_null (Some (form_description (fields c)))) as ->.
      { unfold trim_or_null.
        destruct (truthy (trim (form_description (fields c)))) eqn:Et; [|reflexivity].
        now rewrite trim_twice, Et. }
      assert (or_null (or_null (Some (form_dueDate (fields c))))
              = or_null (Some (form_dueDate (fields c)))) as ->.
      { unfold or_null. destruct (truthy (form_dueDate (fields c))) eqn:Et; [|reflexivity].
        now rewrite Et. }
      reflexivity.
    + split.
      * intros He. destruct (Hfail He) as [code ->]. reflexivity.
      * intros He. destruct (Hok He) as [k' [-> Hk]]. split; [reflexivity|].
        cbn [resume]. rewrite Hk. reflexivity.
Qed.

Lemma form_follows_earlier_createTask_witness :
  no_errors (validateForm clock0 (fun t => t)
               (fields (mkFormCells filled_form false no_form_errors None))) = true
  /\ truthy (lit "A") = true
  /\ awaited (snd (run clock0 (useTask.createTask (Some (lit "A"))
                                 (submitted_input filled_form)) initial_hook))
     = Some (InsertTask (mkNewTask (lit "A") (lit "call Ann") (Some (lit "tomorrow"))
                           high None)).
Proof.
  split; [reflexivity|]. split; [reflexivity|].
  exact (proj1 (proj2 (form_follows_earlier_createTask clock0 (fun t => t)
                         (mkFormCells filled_form false no_form_errors None)
                         (Some (lit "A")) initial_hook initial_hook initial_hook
                         clock0 clock0 clock0 failed_response failed_response eq_refl)
                  (lit "A") eq_refl eq_refl)).
Defined.

(** * The list that [App] renders *)

Lemma startsWith_spec s q : startsWith s q = true <-> exists b, s = q ++ b.
Proof.
  revert s. induction q as [|c q IH]; intros s; simpl.
  - split; [intros _; now exists s | reflexivity].
  - destruct s as [|d s]; simpl.
    + split; [discriminate | intros [b H]; discriminate H].
    + rewrite andb_true_iff, N.eqb_eq, IH. split.
      * intros [-> [b ->]]. now exists b.
      * intros [b H]. injection H as -> ->. split; [reflexivity | now exists b].
Qed.

Lemma includes_spec s q : includes s q = true <-> exists a b, s = a ++ q ++ b.
Proof.
  induction s as [|d s IH]; simpl.
  - rewrite orb_false_r, startsWith_spec. split.
    + intros [b H]. now exists [], b.
    + intros [a [b H]]. destruct a; [now exists b|discriminate H].
  - rewrite orb_true_iff, startsWith_spec, IH. split.
    + intros [[b H]|[a [b H]]].
      * now exists [], b.
      * exists (d :: a), b. simpl. now rewrite H.
    + intros [[|x a] [b H]].
      * left. now exists b.
      * right. injection H as _ ->. now exists a, b.
Qed.

(** X28: the list [App] renders is the hook's collection restricted by the
    search alone.  A query that is blank after trimming shows every task;
    otherwise a task is shown exactly when its lower-cased title or its
    lower-cased description contains the lower-cased query, untrimmed, as a
    substring.  The tasks keep the order of the collection: nothing is
    sorted, and no task is left out for being complete. *)
Theorem rendered_list_is_search_only (toLowerCase : JSString -> JSString)
    (l : list Task) (searchQuery : JSString) :
  (trim searchQuery = [] -> filteredAndSortedTasks toLowerCase l searchQuery = l)
  /\ (trim searchQuery <> [] ->
      forall t, In t (filteredAndSortedTasks toLowerCase l searchQuery) <->
        In t l
        /\ ((exists a b, toLowerCase (title t) = a ++ toLowerCase searchQuery ++ b)
            \/ (exists d a b, description t = Some d
                  /\ toLowerCase d = a ++ toLowerCase searchQuery ++ b)))
  /\ exists keep : Task -> bool,
       filteredAndSortedTasks toLowerCase l searchQuery = filter keep l.
Proof.
  unfold filteredAndSortedTasks. cbv zeta. split; [|split].
  - intros H. now rewrite H.
  - intros H. destruct (trim searchQuery) as [|c q]; [contradiction|].
    cbn [truthy]. intros t. rewrite filter_In, orb_true_iff, includes_spec.
    split; intros [Hin Hm]; (split; [exact Hin|]).
    + destruct Hm as [Hm|Hm]; [left; exact Hm|right].
      destruct (description t) as [d|]; [|discriminate].
      apply includes_spec in Hm. destruct Hm as [a [b Hm]]. now exists d, a, b.
    + destruct Hm as [Hm|[d [a [b [Hd Hm]]]]]; [left; exact Hm|right].
      rewrite Hd. apply includes_spec. now exists a, b.
  - destruct (truthy (trim searchQuery)).
    + eexists. reflexivity.
    + exists (fun _ => true). clear. induction l; simpl; congruence.
Qed.

Lemma rendered_list_is_search_only_witness :
  trim (lit "  ") = []
  /\ filteredAndSortedTasks (fun x => x) (tasks (hook fetched_A)) (lit "  ")
     = tasks (hook fetched_A).
Proof.
  split; [reflexivity|].
  exact (proj1 (rendered_list_is_search_only (fun x => x) (tasks (hook fetched_A))
                  (lit "  ")) eq_refl).
Defined.
